(** * Verification of the landmark input pipeline (input_pipeline.py)

    The development embeds [crop], [Pipeline._parse_and_preprocess],
    [Pipeline._augmentation_fn], [Pipeline.__init__] and
    [Pipeline.get_batch] and proves the properties of the specification
    about them.

    Conventions of the embedding:
    - a float32 scalar is an exact rational ([Q]); rounding, infinities and
      NaN are outside the model, and a record is taken to hold finite
      numbers;
    - a tensor of rank 3 is its shape together with its indexing function;
    - an operation of the tensor library that can fail at run time returns
      a [Result];
    - the functions of the module [augmentations], which is imported by the
      pipeline, are parameters of the development. *)

From Stdlib Require Import String.
From Stdlib.Strings Require Import Byte.
From Stdlib Require Import QArith Qround Qminmax Lqa ZArith Lia List Bool.
From Stdlib Require Import Permutation.
Import ListNotations.

Local Open Scope Q_scope.

(** ** Errors and results *)

Inductive Error : Type :=
| AssertionError
| InvalidArgumentError (msg : string)
| OutOfRangeError.

Inductive Result (A : Type) : Type :=
| Ok (a : A)
| Raise (e : Error).

Arguments Ok {A} a.
Arguments Raise {A} e.

Definition is_ok {A : Type} (r : Result A) : bool :=
  match r with Ok _ => true | Raise _ => false end.

(** ** Tensors *)

Record Tensor3 (A : Type) : Type := mkTensor3 {
  dim0 : Z;
  dim1 : Z;
  dim2 : Z;
  at3 : Z -> Z -> Z -> A
}.

Arguments mkTensor3 {A} dim0 dim1 dim2 at3.
Arguments dim0 {A} t.
Arguments dim1 {A} t.
Arguments dim2 {A} t.
Arguments at3 {A} t i j k.

(** A float image, [height, width, channels] until the final transpose. *)
Definition Image : Type := Tensor3 Q.

(** A box is (ymin, xmin, ymax, xmax); landmarks are rows (y, x). *)
Definition Box : Type := (Q * Q * Q * Q)%type.
Definition Landmark : Type := (Q * Q)%type.
Definition Landmarks : Type := list Landmark.

Definition shape3 {A : Type} (t : Tensor3 A) : Z * Z * Z :=
  (dim0 t, dim1 t, dim2 t).

(** Every entry inside the shape lies in [0, 1]. *)
Definition values_in_unit (t : Tensor3 Q) : Prop :=
  forall i j k : Z,
    (0 <= i < dim0 t)%Z -> (0 <= j < dim1 t)%Z -> (0 <= k < dim2 t)%Z ->
    0 <= at3 t i j k <= 1.

(** ** Primitives of the tensor library used by [crop] *)

(** [tf.to_float] on an integer. *)
Definition to_float (z : Z) : Q := inject_Z z.

(** [tf.to_int32] on a float: the cast truncates toward zero. *)
Definition to_int32 (q : Q) : Z := Z.quot (Qnum q) (Zpos (Qden q)).

(** [tf.clip_by_value t 0.0 1.0] on one scalar. *)
Definition clip_by_value (lo hi x : Q) : Q := Qmax lo (Qmin x hi).

(** [tf.image.crop_to_bounding_box]: the library checks its arguments
    (offsets not negative, target sizes positive, window inside the image)
    and slices the window out. *)
Definition crop_to_bounding_box (image : Image)
    (offset_height offset_width target_height target_width : Z)
  : Result Image :=
  if (offset_width <? 0)%Z then
    Raise (InvalidArgumentError "offset_width must be >= 0.")
  else if (offset_height <? 0)%Z then
    Raise (InvalidArgumentError "offset_height must be >= 0.")
  else if (target_width <=? 0)%Z then
    Raise (InvalidArgumentError "target_width must be > 0.")
  else if (target_height <=? 0)%Z then
    Raise (InvalidArgumentError "target_height must be > 0.")
  else if (dim1 image <? target_width + offset_width)%Z then
    Raise (InvalidArgumentError "width must be >= target + offset.")
  else if (dim0 image <? target_height + offset_height)%Z then
    Raise (InvalidArgumentError "height must be >= target + offset.")
  else
    Ok (mkTensor3 target_height target_width (dim2 image)
          (fun i j k => at3 image (offset_height + i) (offset_width + j) k)).

(** ** [crop] *)

(** Lines 146-155 of [crop]: the box in pixels, grown by its margins and
    cut to the image. *)
Definition crop_region (image_h image_w : Q) (box : Box) : Box :=
  let '(ymin, xmin, ymax, xmax) := box in
  (* box = box * scaler *)
  let ymin := ymin * image_h in
  let xmin := xmin * image_w in
  let ymax := ymax * image_h in
  let xmax := xmax * image_w in
  let h := ymax - ymin in
  let w := xmax - xmin in
  let margin_y := h / 2.0 in
  let margin_x := w / 2.0 in
  let ymin := ymin - 0.5 * margin_y in
  let xmin := xmin - 0.5 * margin_x in
  let ymax := ymax + 0.5 * margin_y in
  let xmax := xmax + 0.5 * margin_x in
  let ymin := Qmax ymin 0 in
  let xmin := Qmax xmin 0 in
  let ymax := Qmin ymax image_h in
  let xmax := Qmin xmax image_w in
  (ymin, xmin, ymax, xmax).

Definition region_ymin (r : Box) : Q := let '(ymin, _, _, _) := r in ymin.
Definition region_xmin (r : Box) : Q := let '(_, xmin, _, _) := r in xmin.
Definition region_ymax (r : Box) : Q := let '(_, _, ymax, _) := r in ymax.
Definition region_xmax (r : Box) : Q := let '(_, _, _, xmax) := r in xmax.
Definition region_height (r : Box) : Q := region_ymax r - region_ymin r.
Definition region_width (r : Box) : Q := region_xmax r - region_xmin r.

(** Lines 157-158: the four integers handed to [crop_to_bounding_box]:
    (offset_height, offset_width, target_height, target_width). *)
Definition crop_window (r : Box) : Z * Z * Z * Z :=
  let '(ymin, xmin, ymax, xmax) := r in
  (to_int32 ymin, to_int32 xmin, to_int32 (ymax - ymin), to_int32 (xmax - xmin)).

(** Lines 161-163 on one landmark row: [landmarks * scaler - shift]. *)
Definition rebase_landmark (image_h image_w : Q) (r : Box) (p : Landmark)
  : Landmark :=
  let '(ymin, xmin, ymax, xmax) := r in
  let shift := (ymin / (ymax - ymin), xmin / (xmax - xmin)) in
  let scaler := (image_h / (ymax - ymin), image_w / (xmax - xmin)) in
  (fst p * fst scaler - fst shift, snd p * snd scaler - snd shift).

Definition crop (image : Image) (landmarks : Landmarks) (box : Box)
  : Result (Image * Landmarks) :=
  let image_h := to_float (dim0 image) in
  let image_w := to_float (dim1 image) in
  let r := crop_region image_h image_w box in
  let '(offset_height, offset_width, target_height, target_width) :=
    crop_window r in
  match crop_to_bounding_box image offset_height offset_width
          target_height target_width with
  | Raise e => Raise e
  | Ok image =>
      let landmarks := map (rebase_landmark image_h image_w r) landmarks in
      Ok (image, landmarks)
  end.

(** ** Statements of the specification about [crop], in its own words *)

(** The region of the specification: the pixel box grown on each side by
    50% of its own height and width, then cut to the image. *)
Definition spec_crop_region (image_h image_w : Q) (box : Box) : Box :=
  let '(ymin, xmin, ymax, xmax) := box in
  let h := ymax * image_h - ymin * image_h in
  let w := xmax * image_w - xmin * image_w in
  (Qmax (ymin * image_h - (1 # 2) * h) 0,
   Qmax (xmin * image_w - (1 # 2) * w) 0,
   Qmin (ymax * image_h + (1 # 2) * h) image_h,
   Qmin (xmax * image_w + (1 # 2) * w) image_w).

(** What the code computes: each side grows by a quarter of the box. *)
Definition quarter_crop_region (image_h image_w : Q) (box : Box) : Box :=
  let '(ymin, xmin, ymax, xmax) := box in
  let h := ymax * image_h - ymin * image_h in
  let w := xmax * image_w - xmin * image_w in
  (Qmax (ymin * image_h - (1 # 4) * h) 0,
   Qmax (xmin * image_w - (1 # 4) * w) 0,
   Qmin (ymax * image_h + (1 # 4) * h) image_h,
   Qmin (xmax * image_w + (1 # 4) * w) image_w).

Definition box_eq (a b : Box) : Prop :=
  region_ymin a == region_ymin b /\ region_xmin a == region_xmin b /\
  region_ymax a == region_ymax b /\ region_xmax a == region_xmax b.

Definition landmark_eq (p q : Landmark) : Prop :=
  fst p == fst q /\ snd p == snd q.

(** The affine map of the specification:
    new = (old * image_extent - crop_origin) / crop_extent. *)
Definition spec_rebase_landmark (image_h image_w : Q) (r : Box) (p : Landmark)
  : Landmark :=
  ((fst p * image_h - region_ymin r) / region_height r,
   (snd p * image_w - region_xmin r) / region_width r).

(** Its inverse: new * crop_extent + crop_origin, over the image extent. *)
Definition uncrop_landmark (image_h image_w : Q) (r : Box) (p : Landmark)
  : Landmark :=
  ((fst p * region_height r + region_ymin r) / image_h,
   (snd p * region_width r + region_xmin r) / image_w).

(** Box components within [0, 1], as [clip_by_value] leaves them. *)
Definition box_in_unit (box : Box) : Prop :=
  let '(ymin, xmin, ymax, xmax) := box in
  (0 <= ymin <= 1) /\ (0 <= xmin <= 1) /\ (0 <= ymax <= 1) /\ (0 <= xmax <= 1).

Definition clip_box (box : Box) : Box :=
  let '(ymin, xmin, ymax, xmax) := box in
  (clip_by_value 0 1 ymin, clip_by_value 0 1 xmin,
   clip_by_value 0 1 ymax, clip_by_value 0 1 xmax).

(** The precondition of [crop]: a clipped box whose height and width in
    pixels are strictly positive ([image_h] and [image_w] are the sizes of
    a tensor, hence not negative). *)
Definition crop_precondition (image_h image_w : Q) (box : Box) : Prop :=
  let '(ymin, xmin, ymax, xmax) := box in
  (0 <= image_h /\ 0 <= image_w) /\
  box_in_unit box /\
  0 < ymax * image_h - ymin * image_h /\
  0 < xmax * image_w - xmin * image_w.

(** A whole number of pixels; all four bounds of a region are whole. *)
Definition whole (q : Q) : Prop := exists z : Z, q == inject_Z z.

Definition whole_region (r : Box) : Prop :=
  whole (region_ymin r) /\ whole (region_xmin r) /\
  whole (region_ymax r) /\ whole (region_xmax r).

(** ** The decoder: one serialized record and its features *)

(** The JPEG payload of a record, by what [tf.image.decode_jpeg] with
    [channels=3] yields: positive height and width and three bytes per
    pixel. *)
Record Jpeg : Type := mkJpeg {
  jpeg_height : positive;
  jpeg_width : positive;
  jpeg_pixel : Z -> Z -> Z -> byte
}.

(** The features of one [example_proto]. *)
Record Example : Type := mkExample {
  feature_image : Jpeg;
  feature_ymin : Q;
  feature_xmin : Q;
  feature_ymax : Q;
  feature_xmax : Q;
  feature_landmarks : list Q
}.

(** [tf.parse_single_example]: the landmark feature has the fixed length
    [2 * num_landmarks]; a record of another length is refused. *)
Definition parse_single_example (num_landmarks : nat) (example_proto : Example)
  : Result Example :=
  if Nat.eqb (length (feature_landmarks example_proto)) (2 * num_landmarks)
  then Ok example_proto
  else Raise (InvalidArgumentError "Key: landmarks. Cannot parse serialized Example.").

Definition decode_jpeg (contents : Jpeg) : Tensor3 byte :=
  mkTensor3 (Zpos (jpeg_height contents)) (Zpos (jpeg_width contents)) 3
    (jpeg_pixel contents).

(** [tf.image.convert_image_dtype] from uint8 to float32 scales by 1/255. *)
Definition convert_image_dtype (image : Tensor3 byte) : Image :=
  mkTensor3 (dim0 image) (dim1 image) (dim2 image)
    (fun i j k => inject_Z (Z.of_N (Byte.to_N (at3 image i j k))) * (1 # 255)).

(** [tf.reshape landmarks [num_landmarks, 2]] on a flat list. *)
Fixpoint reshape_rows (flat : list Q) : Landmarks :=
  match flat with
  | y :: x :: rest => (y, x) :: reshape_rows rest
  | _ => []
  end.

Definition clip_landmarks (landmarks : Landmarks) : Landmarks :=
  map (fun p => (clip_by_value 0 1 (fst p), clip_by_value 0 1 (snd p)))
    landmarks.

(** ** Resize and transpose *)

(** Interpolation weights of the bilinear kernel along one axis:
    the two source indices and the weight of the second. *)
Definition interpolation (out_size in_size i : Z) : Z * Z * Q :=
  let scale := to_float in_size / to_float out_size in
  let pos := to_float i * scale in
  let lower := to_int32 pos in
  let upper := Z.min (lower + 1) (in_size - 1) in
  (lower, upper, pos - inject_Z lower).

(** [tf.image.resize_images image [new_height, new_width]] with
    RESIZE_METHOD = BILINEAR. The kernel refuses an empty input and a
    target size that is not positive. *)
Definition resize_images (image : Image) (size : Z * Z) : Result Image :=
  let '(new_height, new_width) := size in
  if ((new_height <=? 0) || (new_width <=? 0))%Z then
    Raise (InvalidArgumentError "output dimensions must be positive")
  else if ((dim0 image <=? 0) || (dim1 image <=? 0))%Z then
    Raise (InvalidArgumentError "input image must be of non-zero size")
  else
    Ok (mkTensor3 new_height new_width (dim2 image)
          (fun i j k =>
             let '(top, bottom, y_lerp) :=
               interpolation new_height (dim0 image) i in
             let '(left_x, right_x, x_lerp) :=
               interpolation new_width (dim1 image) j in
             let top_left := at3 image top left_x k in
             let top_right := at3 image top right_x k in
             let bottom_left := at3 image bottom left_x k in
             let bottom_right := at3 image bottom right_x k in
             let top_value := top_left + (top_right - top_left) * x_lerp in
             let bottom_value :=
               bottom_left + (bottom_right - bottom_left) * x_lerp in
             top_value + (bottom_value - top_value) * y_lerp)).

(** [tf.transpose image perm=[2, 0, 1]]: to channel-first layout. *)
Definition transpose_201 {A : Type} (t : Tensor3 A) : Tensor3 A :=
  mkTensor3 (dim2 t) (dim0 t) (dim1 t) (fun c i j => at3 t i j c).

(** ** Datasets, streams and iterators *)

(** A dataset that can be iterated again: the elements of pass number
    [pass] (a shuffled dataset yields another order on every pass). *)
Definition Dataset (A : Type) : Type := nat -> list A.

(** The elements of a stream by position; [None] from its end on. *)
Definition Stream (A : Type) : Type := nat -> option A.

Definition from_tensor_slices {A : Type} (l : list A) : Dataset A :=
  fun _ => l.

Definition flat_map {A B : Type} (f : A -> list B) (ds : Dataset A)
  : Dataset B :=
  fun pass => List.flat_map f (ds pass).

(** Prefetching changes when elements are computed, not which. *)
Definition prefetch {A : Type} (buffer_size : Z) (ds : A) : A := ds.

(** [dataset.repeat(count)]: pass after pass; [None] repeats for ever.
    [fuel] bounds the number of passes looked at to find position [i]. *)
Fixpoint repeat_at {A : Type} (ds : Dataset A) (fuel : nat)
    (count : option nat) (pass i : nat) : option A :=
  match fuel with
  | O => None
  | S fuel' =>
      match count with
      | Some O => None
      | _ =>
          let elements := ds pass in
          if (i <? length elements)%nat then nth_error elements i
          else repeat_at ds fuel' (option_map Nat.pred count) (S pass)
                 (i - length elements)
      end
  end.

Definition repeat {A : Type} (count : option nat) (ds : Dataset A)
  : Stream A :=
  fun i => repeat_at ds (S i) count 0%nat i.

(** [dataset.map f]: [f] also receives the position of the element. *)
Definition map_stream {A B : Type} (f : nat -> A -> B) (s : Stream A)
  : Stream B :=
  fun i => option_map (f i) (s i).

(** One element of the pipeline and one batch: the images stacked and the
    landmark sets stacked, along a new leading axis. *)
Definition Element : Type := (Tensor3 Q * Landmarks)%type.
Definition Batch : Type := (list (Tensor3 Q) * list Landmarks)%type.

Definition same_shape (a b : Element) : bool :=
  (dim0 (fst a) =? dim0 (fst b))%Z && (dim1 (fst a) =? dim1 (fst b))%Z &&
  (dim2 (fst a) =? dim2 (fst b))%Z &&
  Nat.eqb (length (snd a)) (length (snd b)).

(** Stacking needs components of one shape. *)
Definition stack (elements : list Element) : Result Batch :=
  match elements with
  | [] => Ok ([], [])
  | first :: _ =>
      if forallb (same_shape first) elements then Ok (split elements)
      else Raise (InvalidArgumentError "Cannot batch tensors with different shapes.")
  end.

(** [dataset.batch(batch_size)]: the stream to be batched and the size. No
    remainder is dropped. *)
Record Batched : Type := mkBatched {
  batched_elements : Stream (Result Element);
  batched_size : nat
}.

Definition batch (batch_size : nat) (s : Stream (Result Element)) : Batched :=
  mkBatched s batch_size.

(** The one-shot iterator: the batched stream and the position reached. *)
Record Iterator : Type := mkIterator {
  iterator_source : Batched;
  iterator_position : nat
}.

Definition make_one_shot_iterator (dataset : Batched) : Iterator :=
  mkIterator dataset 0.

(** Pull up to [n] more elements into [acc] from position [pos]. An
    element that fails fails the batch; the end of the stream closes a
    batch that has begun, and is [OutOfRangeError] for one that has not. *)
Fixpoint pull (s : Stream (Result Element)) (n pos : nat) (acc : list Element)
  : Result Batch * nat :=
  match n with
  | O => (stack (rev acc), pos)
  | S n' =>
      match s pos with
      | None =>
          match acc with
          | [] => (Raise OutOfRangeError, pos)
          | _ => (stack (rev acc), pos)
          end
      | Some (Raise e) => (Raise e, S pos)
      | Some (Ok a) => pull s n' (S pos) (a :: acc)
      end
  end.

Definition get_next (it : Iterator) : Result Batch * Iterator :=
  let source := iterator_source it in
  match batched_size source with
  | O => (Raise (InvalidArgumentError "Batch size must be greater than zero."),
          it)
  | S _ =>
      let '(r, pos) :=
        pull (batched_elements source) (batched_size source)
          (iterator_position it) [] in
      (r, mkIterator source pos)
  end.

(** ** The per-example transform and the pipeline *)

(** The stages a transform can apply to one example. *)
Inductive Stage : Type :=
| StageRotation
| StageBoxJitter
| StageCrop
| StageResize
| StageColorManipulations
| StagePixelValueScale
| StageGaussianBlur
| StageFlipLeftRight.

(** Global constants of the module. *)
Definition SHUFFLE_BUFFER_SIZE : Z := 10000.
Definition NUM_THREADS : Z := 8.

(** The attributes [__init__] sets before it builds the dataset. *)
Record Attributes : Type := mkAttributes {
  image_width : Z;
  image_height : Z;
  augmentation : bool;
  batch_size : nat;
  num_landmarks : nat
}.

Record Pipeline : Type := mkPipeline {
  self_attributes : Attributes;
  num_examples : nat;
  iterator : Iterator
}.

(** What the pipeline takes from outside this file: the functions imported
    from [augmentations] (each consumes randomness), the shuffle of the
    dataset library, the files, and the random generator. *)
Record Environment : Type := mkEnvironment {
  Rng : Type;
  random_rotation :
    Image -> Box -> Landmarks -> Q -> Rng -> (Image * Box * Landmarks) * Rng;
  random_color_manipulations : Image -> Q -> Q -> Rng -> Image * Rng;
  random_pixel_value_scale : Image -> Q -> Q -> Q -> Rng -> Image * Rng;
  random_gaussian_blur : Image -> Q -> Z -> Rng -> Image * Rng;
  random_flip_left_right :
    Image -> Landmarks -> Rng -> (Image * Landmarks) * Rng;
  (** [dataset.shuffle(buffer_size)] on the elements of pass [pass]. *)
  dataset_shuffle : forall A : Type, nat -> Z -> list A -> list A;
  (** The records stored in each file. *)
  tf_record_iterator : string -> list Example;
  (** The generator state in which the example at a position of the
      stream is transformed. *)
  example_rng : nat -> Rng
}.

Section WithEnvironment.

Variable env : Environment.

(** *** A state and error monad: generator state and applied stages *)

Record State : Type := mkState {
  state_rng : Rng env;
  state_stages : list Stage
}.

Definition M (A : Type) : Type := State -> Result (A * State).

Definition ret {A : Type} (a : A) : M A := fun st => Ok (a, st).

Definition bind {A B : Type} (m : M A) (k : A -> M B) : M B :=
  fun st =>
    match m st with
    | Ok (a, st') => k a st'
    | Raise e => Raise e
    end.

Notation "x <- m ;; k" := (bind m (fun x => k))
  (at level 61, m at next level, right associativity).
Notation "' pat <- m ;; k" :=
  (bind m (fun x => match x with pat => k end))
  (at level 61, pat pattern, m at next level, right associativity).

Definition lift {A : Type} (r : Result A) : M A :=
  fun st => match r with Ok a => Ok (a, st) | Raise e => Raise e end.

Definition random {A : Type} (f : Rng env -> A * Rng env) : M A :=
  fun st =>
    let '(a, rng) := f (state_rng st) in
    Ok (a, mkState rng (state_stages st)).

(** Run [m] as stage [s]: the stage is recorded when [m] is entered. *)
Definition stage {A : Type} (s : Stage) (m : M A) : M A :=
  fun st => m (mkState (state_rng st) (state_stages st ++ [s])).

(** *** [Pipeline._augmentation_fn] and [Pipeline._parse_and_preprocess] *)

(** The statement
    [image = tf.image.resize_images(image, [image_height, image_width])]
    of both paths, on the variables that are live across it. *)
Definition resize_step (self : Attributes) (vars : Image * Landmarks)
  : M (Image * Landmarks) :=
  let '(image, landmarks) := vars in
  image <- stage StageResize
    (lift (resize_images image (image_height self, image_width self))) ;;
  ret (image, landmarks).

Definition _augmentation_fn (self : Attributes) (image : Image) (box : Box)
    (landmarks : Landmarks) : M (Image * Landmarks) :=
  '(image, box, landmarks) <- stage StageRotation
    (random (random_rotation env image box landmarks 30)) ;;
  '(image, landmarks) <- resize_step self (image, landmarks) ;;
  image <- stage StageColorManipulations
    (random (random_color_manipulations env image 0.15 0.05)) ;;
  image <- stage StagePixelValueScale
    (random (random_pixel_value_scale env image 0.85 1.15 0.15)) ;;
  image <- stage StageGaussianBlur
    (random (random_gaussian_blur env image 0.3 5)) ;;
  '(image, landmarks) <- stage StageFlipLeftRight
    (random (random_flip_left_right env image landmarks)) ;;
  ret (image, landmarks).

Definition _parse_and_preprocess (self : Attributes) (example_proto : Example)
  : M Element :=
  parsed_features <-
    lift (parse_single_example (num_landmarks self) example_proto) ;;
  (* get image *)
  let image := decode_jpeg (feature_image parsed_features) in
  let image := convert_image_dtype image in
  (* get face box *)
  let box := (feature_ymin parsed_features, feature_xmin parsed_features,
              feature_ymax parsed_features, feature_xmax parsed_features) in
  let box := clip_box box in
  (* get facial landmarks *)
  let landmarks := feature_landmarks parsed_features in
  let landmarks := reshape_rows landmarks in
  let landmarks := clip_landmarks landmarks in
  '(image, landmarks) <-
    (if augmentation self then _augmentation_fn self image box landmarks
     else
       '(image, landmarks) <- stage StageCrop
         (lift (crop image landmarks box)) ;;
       resize_step self (image, landmarks)) ;;
  let image := transpose_201 image in
  ret (image, landmarks).

(** The function handed to [dataset.map]: the transform of the example
    at position [i], started in that position's generator state. The
    parallel map keeps the order of the stream. *)
Definition map_fn (self : Attributes) (i : nat) (example_proto : Example)
  : Result Element :=
  match
    _parse_and_preprocess self example_proto (mkState (example_rng env i) [])
  with
  | Ok (element, _) => Ok element
  | Raise e => Raise e
  end.

(** *** [Pipeline.__init__] and [Pipeline.get_batch] *)

Definition get_num_samples (filename : string) : nat :=
  length (tf_record_iterator env filename).

(** The counting loop with its assertion on every file. *)
Fixpoint count_examples (filenames : list string) (num_examples : nat)
  : Result nat :=
  match filenames with
  | [] => Ok num_examples
  | filename :: rest =>
      let num_examples_in_file := get_num_samples filename in
      (* assert num_examples_in_file > 0 *)
      if (0 <? num_examples_in_file)%nat
      then count_examples rest (num_examples + num_examples_in_file)
      else Raise AssertionError
  end.

Definition TFRecordDataset (filename : string) : list Example :=
  tf_record_iterator env filename.

Definition shuffle_dataset {A : Type} (buffer_size : Z) (ds : Dataset A)
  : Dataset A :=
  fun pass => dataset_shuffle env A pass buffer_size (ds pass).

(** The records of one pass, as the dataset stands before [repeat]. *)
Definition record_dataset (filenames : list string) (batch_size : nat)
    (shuffle : bool) : Dataset Example :=
  let dataset := from_tensor_slices filenames in
  let num_shards := Z.of_nat (length filenames) in
  let dataset :=
    if shuffle then shuffle_dataset num_shards dataset else dataset in
  let dataset := flat_map TFRecordDataset dataset in
  let dataset := prefetch (Z.of_nat batch_size) dataset in
  if shuffle then shuffle_dataset SHUFFLE_BUFFER_SIZE dataset else dataset.

Definition __init__ (filenames : list string) (batch_size : nat)
    (image_size : Z * Z) (num_landmarks : nat)
    (repeat_ shuffle augmentation : bool) : Result Pipeline :=
  let '(image_width, image_height) := image_size in
  let self :=
    mkAttributes image_width image_height augmentation batch_size
      num_landmarks in
  match count_examples filenames 0 with
  | Raise e => Raise e
  | Ok num_examples =>
      (* assert self.num_examples > 0 *)
      if (0 <? num_examples)%nat then
        let dataset := record_dataset filenames batch_size shuffle in
        let dataset := repeat (if repeat_ then None else Some 1%nat) dataset in
        let dataset := map_stream (map_fn self) dataset in
        let dataset := batch batch_size dataset in
        let dataset := prefetch 1 dataset in
        Ok (mkPipeline self num_examples (make_one_shot_iterator dataset))
      else Raise AssertionError
  end.

Definition get_batch (self : Pipeline) : Result Batch * Pipeline :=
  let '(r, it) := get_next (iterator self) in
  (r, mkPipeline (self_attributes self) (num_examples self) it).

(** The outcome of call number [k] (from 0) of [get_batch]. *)
Fixpoint get_batch_nth (k : nat) (self : Pipeline) : Result Batch :=
  match k with
  | O => fst (get_batch self)
  | S k' => get_batch_nth k' (snd (get_batch self))
  end.

End WithEnvironment.

Arguments ret {env A} a.
Arguments bind {env A B} m k.
Arguments lift {env A} r.
Arguments random {env A} f.
Arguments stage {env A} s m.
Arguments state_rng {env} s.
Arguments state_stages {env} s.

(** ** Statements about the transform and the stream *)

(** The order of the stages of the augmented path. *)
Definition augmentation_order : list Stage :=
  [StageRotation; StageResize; StageColorManipulations; StagePixelValueScale;
   StageGaussianBlur; StageFlipLeftRight].

(** The augmented path in the words of the specification: rotation, then
    the resize of the rotated image, then color, pixel scale, blur and
    flip, each on the image of the step before it. *)
Definition spec_augmented (env : Environment) (self : Attributes)
    (image : Image) (box : Box) (landmarks : Landmarks) (rng : Rng env)
  : Result ((Image * Landmarks) * Rng env) :=
  let '((rotated, _, landmarks), rng) :=
    random_rotation env image box landmarks 30 rng in
  match resize_images rotated (image_height self, image_width self) with
  | Raise e => Raise e
  | Ok resized =>
      let '(colored, rng) :=
        random_color_manipulations env resized 0.15 0.05 rng in
      let '(scaled, rng) :=
        random_pixel_value_scale env colored 0.85 1.15 0.15 rng in
      let '(blurred, rng) := random_gaussian_blur env scaled 0.3 5 rng in
      let '((flipped, landmarks), rng) :=
        random_flip_left_right env blurred landmarks rng in
      Ok ((flipped, landmarks), rng)
  end.

(** An image operation keeps the shape, and keeps values in [0, 1]. *)
Definition keeps_image (image image' : Image) : Prop :=
  shape3 image' = shape3 image /\
  (values_in_unit image -> values_in_unit image').

(** Modelled from the spec: the module [augmentations] is not among the
    sources. Its transforms keep the shape of the image and pixel values in
    [0, 1] (photometric steps re-clip, geometric steps move pixels), and
    the geometric ones keep the number and order of the landmarks. *)
Record augmentations_contract (env : Environment) : Prop :=
  mkAugmentationsContract {
  rotation_contract :
    forall image box landmarks max_angle rng,
      let '((image', _, landmarks'), _) :=
        random_rotation env image box landmarks max_angle rng in
      keeps_image image image' /\ length landmarks' = length landmarks;
  color_contract :
    forall image probability grayscale rng,
      keeps_image image
        (fst (random_color_manipulations env image probability grayscale rng));
  scale_contract :
    forall image minval maxval probability rng,
      keeps_image image
        (fst (random_pixel_value_scale env image minval maxval probability
                rng));
  blur_contract :
    forall image probability kernel_size rng,
      keeps_image image
        (fst (random_gaussian_blur env image probability kernel_size rng));
  flip_contract :
    forall image landmarks rng,
      let '((image', landmarks'), _) :=
        random_flip_left_right env image landmarks rng in
      keeps_image image image' /\ length landmarks' = length landmarks
}.

(** [dataset.shuffle] reorders the elements of a pass. *)
Definition shuffle_permutes (env : Environment) : Prop :=
  forall (A : Type) (pass : nat) (buffer_size : Z) (l : list A),
    Permutation (dataset_shuffle env A pass buffer_size l) l.

(** The shape every element of the pipeline is to have. *)
Definition well_shaped (self : Attributes) (element : Element) : bool :=
  (dim0 (fst element) =? 3)%Z &&
  (dim1 (fst element) =? image_height self)%Z &&
  (dim2 (fst element) =? image_width self)%Z &&
  Nat.eqb (length (snd element)) (num_landmarks self).

(** The record is transformed without error into a well shaped element,
    at position [i] of the stream. *)
Definition processes (env : Environment) (self : Attributes) (i : nat)
    (example_proto : Example) : bool :=
  match map_fn env self i example_proto with
  | Ok element => well_shaped self element
  | Raise _ => false
  end.

(** All the records of the files, in the order of the list of files. *)
Definition all_records (env : Environment) (filenames : list string)
  : list Example :=
  List.flat_map (tf_record_iterator env) filenames.

Definition floor_div (n b : nat) : nat := (n / b)%nat.
Definition ceil_div (n b : nat) : nat := ((n + b - 1) / b)%nat.

Definition batch_length (r : Result Batch) : option nat :=
  match r with
  | Ok (images, _) => Some (length images)
  | Raise _ => None
  end.

(** The stream yields a batch on each of its first [count] calls and then
    signals its end. *)
Definition terminates_after (count : nat) (self : Pipeline) : Prop :=
  (forall k, (k < count)%nat -> exists b, get_batch_nth k self = Ok b) /\
  get_batch_nth count self = Raise OutOfRangeError.

(** The pipeline after [k] calls of [get_batch]. *)
Fixpoint advance (k : nat) (self : Pipeline) : Pipeline :=
  match k with
  | O => self
  | S k' => advance k' (snd (get_batch self))
  end.

(** ** Sample data *)

(** An environment in which no gate of the augmentations fires and
    nothing is shuffled. *)
Definition still_environment (files : string -> list Example) : Environment :=
  mkEnvironment unit
    (fun image box landmarks _ rng => ((image, box, landmarks), rng))
    (fun image _ _ rng => (image, rng))
    (fun image _ _ _ rng => (image, rng))
    (fun image _ _ rng => (image, rng))
    (fun image landmarks rng => ((image, landmarks), rng))
    (fun _ _ _ l => l)
    files
    (fun _ => tt).

(** A gray image of 4 by 4 pixels with a face box in its lower right
    quarter and one landmark in the upper left corner. *)
Definition gray_jpeg : Jpeg := mkJpeg 4 4 (fun _ _ _ => x80).

Definition corner_example : Example :=
  mkExample gray_jpeg 0.5 0.5 1 1 [0; 0].

Definition gray_image : Image := convert_image_dtype (decode_jpeg gray_jpeg).

Definition corner_box : Box := (0.5, 0.5, 1, 1).

(** A box without height. *)
Definition flat_box : Box := (0.5, 0.5, 0.5, 1).

(** A box whose region on an image of 100 by 100 pixels has whole
    bounds. *)
Definition centre_box : Box := (0.4, 0.4, 0.6, 0.6).

(** The box of the whole image. *)
Definition full_box : Box := (0, 0, 1, 1).

Definition corner_landmarks : Landmarks := [(0, 0)].

(** An environment whose transforms do not commute and leave a trace: each
    one adds its stage to the state of the generator; color halves the
    pixels, scale halves them and adds a half, blur squares them, the flip
    mirrors the columns and the x of the landmarks. *)
Definition map_pixels (f : Q -> Q) (image : Image) : Image :=
  mkTensor3 (dim0 image) (dim1 image) (dim2 image)
    (fun i j k => f (at3 image i j k)).

Definition tracing_environment : Environment :=
  mkEnvironment (list Stage)
    (fun image box landmarks _ rng =>
       ((image, box, landmarks), rng ++ [StageRotation]))
    (fun image _ _ rng =>
       (map_pixels (fun x => x * (1 # 2)) image,
        rng ++ [StageColorManipulations]))
    (fun image _ _ _ rng =>
       (map_pixels (fun x => x * (1 # 2) + (1 # 2)) image,
        rng ++ [StagePixelValueScale]))
    (fun image _ _ rng =>
       (map_pixels (fun x => x * x) image, rng ++ [StageGaussianBlur]))
    (fun image landmarks rng =>
       ((mkTensor3 (dim0 image) (dim1 image) (dim2 image)
           (fun i j k => at3 image i (dim1 image - 1 - j)%Z k),
         map (fun p => (fst p, 1 - snd p)) landmarks),
        rng ++ [StageFlipLeftRight]))
    (fun _ _ _ l => l)
    (fun _ => [])
    (fun _ => []).

Definition tracing_state : State tracing_environment :=
  mkState tracing_environment [] [].

(** Two shards with ten records in all, a third one without records. *)
Definition ten_records (filename : string) : list Example :=
  if String.eqb filename "train-0" then List.repeat corner_example 6
  else if String.eqb filename "train-1" then List.repeat corner_example 4
  else [].

Definition ten_environment : Environment := still_environment ten_records.

Definition ten_pipeline (augmentation : bool) : Result Pipeline :=
  __init__ ten_environment ["train-0"; "train-1"]%string 4 (2, 2)%Z 1
    false false augmentation.

Definition ten_files : list string := ["train-0"; "train-1"]%string.

Definition still_state : State ten_environment := mkState ten_environment tt [].

(** A pipeline that was never given a file. *)
Definition empty_pipeline : Pipeline :=
  mkPipeline (mkAttributes 0 0 false 0 0) 0
    (mkIterator (mkBatched (fun _ => None) 0) 0).

Definition ten_self (augmentation : bool) : Pipeline :=
  match ten_pipeline augmentation with
  | Ok self => self
  | Raise _ => empty_pipeline
  end.

Definition batch_landmarks (r : Result Batch) : list Landmarks :=
  match r with
  | Ok (_, landmark_sets) => landmark_sets
  | Raise _ => []
  end.

Definition landmarks_in_unit (landmarks : Landmarks) : Prop :=
  Forall (fun p => (0 <= fst p <= 1) /\ (0 <= snd p <= 1)) landmarks.

(** The lengths of the batches of the first [n] calls of [get_batch];
    [None] for a call that raises. *)
Definition emitted_lengths (n : nat) (r : Result Pipeline)
  : list (option nat) :=
  match r with
  | Ok self => map (fun k => batch_length (get_batch_nth k self)) (seq 0 n)
  | Raise _ => []
  end.

(** ** Further statements about [crop] and the transform *)

Definition landmark_in_unit (p : Landmark) : Prop :=
  (0 <= fst p <= 1) /\ (0 <= snd p <= 1).

(** The landmark, in pixels of the image, lies inside the region. *)
Definition landmark_in_region (image_h image_w : Q) (r : Box) (p : Landmark)
  : Prop :=
  (region_ymin r <= fst p * image_h <= region_ymax r) /\
  (region_xmin r <= snd p * image_w <= region_xmax r).

Definition box_ordered (box : Box) : Prop :=
  let '(ymin, xmin, ymax, xmax) := box in ymin <= ymax /\ xmin <= xmax.

(** The box in pixels, as [box * scaler] of [crop]. *)
Definition pixel_box (image_h image_w : Q) (box : Box) : Box :=
  let '(ymin, xmin, ymax, xmax) := box in
  (ymin * image_h, xmin * image_w, ymax * image_h, xmax * image_w).

(** ** Further sample data *)

(** The sample pipeline with repeat enabled. *)
Definition ten_repeating : Result Pipeline :=
  __init__ ten_environment ten_files 4 (2, 2)%Z 1 true false false.

(** The image operations are reasoned about through their lemmas. *)
Arguments resize_images : simpl never.
Arguments crop_to_bounding_box : simpl never.
Arguments crop : simpl never.
Arguments interpolation : simpl never.

(** * Properties of [crop] *)

(** ** The cast to int32 *)

Lemma to_int32_floor (q : Q) : 0 <= q -> to_int32 q = Qfloor q.
Proof.
  destruct q as [n d]. unfold Qle, to_int32, Qfloor. simpl. intros Hn.
  apply Z.quot_div_nonneg; lia.
Qed.

Lemma to_int32_ceiling (q : Q) : q <= 0 -> to_int32 q = Qceiling q.
Proof.
  destruct q as [n d]. unfold Qle, to_int32, Qceiling, Qfloor. simpl.
  intros Hn.
  rewrite <- (Z.opp_involutive n) at 1.
  rewrite Z.quot_opp_l by lia.
  rewrite Z.quot_div_nonneg by lia. reflexivity.
Qed.

Lemma to_int32_comp (p q : Q) : p == q -> to_int32 p = to_int32 q.
Proof.
  intros Hpq. destruct (Qlt_le_dec p 0) as [Hneg | Hpos].
  - rewrite !to_int32_ceiling by (rewrite <- ?Hpq; apply Qlt_le_weak, Hneg).
    apply Qceiling_comp, Hpq.
  - rewrite !to_int32_floor by (rewrite <- ?Hpq; exact Hpos).
    apply Qfloor_comp, Hpq.
Qed.

Lemma to_int32_inject_Z (z : Z) : to_int32 (inject_Z z) = z.
Proof. unfold to_int32. simpl. apply Z.quot_1_r. Qed.

Lemma to_int32_bounds (q : Q) :
  0 <= q ->
  (0 <= to_int32 q)%Z /\ inject_Z (to_int32 q) <= q < inject_Z (to_int32 q) + 1.
Proof.
  intros Hq. rewrite (to_int32_floor q Hq). split; [| split].
  - rewrite <- (Qfloor_Z 0). apply Qfloor_resp_le, Hq.
  - apply Qfloor_le.
  - pose proof (Qlt_floor q) as Hlt. rewrite inject_Z_plus in Hlt. exact Hlt.
Qed.

Lemma to_int32_positive (q : Q) : (0 < to_int32 q)%Z -> 0 < q.
Proof.
  intros Hpos. destruct (Qlt_le_dec 0 q) as [H | H]; [exact H | exfalso].
  rewrite (to_int32_ceiling q H) in Hpos.
  assert (Qceiling q <= Qceiling 0)%Z by (apply Qceiling_resp_le, H).
  change (Qceiling 0) with 0%Z in *. lia.
Qed.

Lemma to_int32_zero (q : Q) : q == 0 -> to_int32 q = 0%Z.
Proof. intros H. rewrite (to_int32_comp q 0 H). reflexivity. Qed.

(** ** The window check of the library *)

Lemma crop_to_bounding_box_ok (image image' : Image) (oy ox th tw : Z) :
  crop_to_bounding_box image oy ox th tw = Ok image' ->
  (0 <= oy)%Z /\ (0 <= ox)%Z /\ (0 < th)%Z /\ (0 < tw)%Z /\
  (oy + th <= dim0 image)%Z /\ (ox + tw <= dim1 image)%Z /\
  image' = mkTensor3 th tw (dim2 image)
             (fun i j k => at3 image (oy + i) (ox + j) k).
Proof.
  unfold crop_to_bounding_box.
  destruct (Z.ltb_spec ox 0); [discriminate |].
  destruct (Z.ltb_spec oy 0); [discriminate |].
  destruct (Z.leb_spec tw 0); [discriminate |].
  destruct (Z.leb_spec th 0); [discriminate |].
  destruct (Z.ltb_spec (dim1 image) (tw + ox)); [discriminate |].
  destruct (Z.ltb_spec (dim0 image) (th + oy)); [discriminate |].
  intros Heq. injection Heq as <-. repeat split; lia.
Qed.

Lemma crop_to_bounding_box_empty (image : Image) (oy ox th tw : Z) :
  (th <= 0)%Z \/ (tw <= 0)%Z ->
  exists msg,
    crop_to_bounding_box image oy ox th tw = Raise (InvalidArgumentError msg).
Proof.
  intros Hempty. unfold crop_to_bounding_box.
  destruct (Z.ltb_spec ox 0); [eexists; reflexivity |].
  destruct (Z.ltb_spec oy 0); [eexists; reflexivity |].
  destruct (Z.leb_spec tw 0); [eexists; reflexivity |].
  destruct (Z.leb_spec th 0); [eexists; reflexivity |].
  lia.
Qed.

(** What a successful [crop] returns. *)
Lemma crop_ok (image image' : Image) (landmarks landmarks' : Landmarks)
    (box : Box) :
  crop image landmarks box = Ok (image', landmarks') ->
  let image_h := to_float (dim0 image) in
  let image_w := to_float (dim1 image) in
  let r := crop_region image_h image_w box in
  crop_to_bounding_box image (to_int32 (region_ymin r))
    (to_int32 (region_xmin r)) (to_int32 (region_height r))
    (to_int32 (region_width r)) = Ok image' /\
  landmarks' = map (rebase_landmark image_h image_w r) landmarks.
Proof.
  unfold crop. cbv zeta.
  destruct (crop_region (to_float (dim0 image)) (to_float (dim1 image)) box)
    as [[[ymin xmin] ymax] xmax].
  unfold crop_window, region_height, region_width. simpl.
  destruct (crop_to_bounding_box image (to_int32 ymin) (to_int32 xmin)
              (to_int32 (ymax - ymin)) (to_int32 (xmax - xmin)));
    [| discriminate].
  intros Heq. injection Heq as <- <-. split; reflexivity.
Qed.

(** The extents of the region of a successful [crop] are positive. *)
Lemma crop_ok_extents (image image' : Image) (landmarks landmarks' : Landmarks)
    (box : Box) :
  crop image landmarks box = Ok (image', landmarks') ->
  let r := crop_region (to_float (dim0 image)) (to_float (dim1 image)) box in
  0 < region_height r /\ 0 < region_width r.
Proof.
  intros Hcrop. apply crop_ok in Hcrop. cbv zeta in Hcrop.
  destruct Hcrop as [Hwindow _].
  apply crop_to_bounding_box_ok in Hwindow.
  destruct Hwindow as (_ & _ & Hth & Htw & _).
  split; apply to_int32_positive; assumption.
Qed.

(** ** The region *)

Lemma crop_region_quarter (image_h image_w : Q) (box : Box) :
  box_eq (crop_region image_h image_w box)
    (quarter_crop_region image_h image_w box).
Proof.
  destruct box as [[[ymin xmin] ymax] xmax].
  unfold box_eq, crop_region, quarter_crop_region; simpl.
  repeat split;
    first [apply Q.max_compat | apply Q.min_compat];
    first [reflexivity | field].
Qed.

Lemma clip_by_value_unit (x : Q) : 0 <= clip_by_value 0 1 x <= 1.
Proof.
  unfold clip_by_value. split.
  - apply Q.le_max_l.
  - apply Q.max_lub; [lra | apply Q.le_min_r].
Qed.

Lemma clip_box_in_unit (box : Box) : box_in_unit (clip_box box).
Proof.
  destruct box as [[[ymin xmin] ymax] xmax]. unfold clip_box, box_in_unit.
  repeat split; apply clip_by_value_unit.
Qed.

(** Under the precondition the region is at least as large as the box. *)
Lemma crop_precondition_extents (image_h image_w : Q) (box : Box) :
  crop_precondition image_h image_w box ->
  let r := crop_region image_h image_w box in
  0 < region_height r /\ 0 < region_width r /\ 0 < image_h /\ 0 < image_w.
Proof.
  destruct box as [[[ymin xmin] ymax] xmax].
  unfold crop_precondition, box_in_unit.
  intros ((Hh & Hw) & (Hymin & Hxmin & Hymax & Hxmax) & Hbh & Hbw).
  cbv zeta.
  assert (Hih : 0 < image_h) by nra.
  assert (Hiw : 0 < image_w) by nra.
  unfold region_height, region_width, crop_region; simpl.
  set (y0 := ymin * image_h - 0.5 * ((ymax * image_h - ymin * image_h) / 2.0)).
  set (y1 := ymax * image_h + 0.5 * ((ymax * image_h - ymin * image_h) / 2.0)).
  set (x0 := xmin * image_w - 0.5 * ((xmax * image_w - xmin * image_w) / 2.0)).
  set (x1 := xmax * image_w + 0.5 * ((xmax * image_w - xmin * image_w) / 2.0)).
  assert (Hy0 : y0 == ymin * image_h - (1 # 4) * (ymax * image_h - ymin * image_h))
    by (unfold y0; field).
  assert (Hy1 : y1 == ymax * image_h + (1 # 4) * (ymax * image_h - ymin * image_h))
    by (unfold y1; field).
  assert (Hx0 : x0 == xmin * image_w - (1 # 4) * (xmax * image_w - xmin * image_w))
    by (unfold x0; field).
  assert (Hx1 : x1 == xmax * image_w + (1 # 4) * (xmax * image_w - xmin * image_w))
    by (unfold x1; field).
  assert (Qmax y0 0 <= ymin * image_h) by (apply Q.max_lub; nra).
  assert (ymax * image_h <= Qmin y1 image_h) by (apply Q.min_glb; nra).
  assert (Qmax x0 0 <= xmin * image_w) by (apply Q.max_lub; nra).
  assert (xmax * image_w <= Qmin x1 image_w) by (apply Q.min_glb; nra).
  repeat split; lra.
Qed.

(** ** The claims about [crop] *)

(** C1 (as amended). For every image size and every box, the region computed
    by [crop] is the box in pixels, grown on each of its four sides by 25%
    of the box's own height (for y) and width (for x) -- the margin is half
    the box and half of the margin goes to each side -- and then cut to
    [0, image_h] and [0, image_w]; and the box the decoder hands over has
    every component clipped to [0, 1]. *)
Theorem crop_region_quarter_margin :
  (forall (image_h image_w : Q) (box : Box),
      box_eq (crop_region image_h image_w box)
        (quarter_crop_region image_h image_w box)) /\
  (forall raw_box : Box, box_in_unit (clip_box raw_box)).
Proof.
  split.
  - exact crop_region_quarter.
  - exact clip_box_in_unit.
Qed.

(** The rebasing of the code in the closed form of the specification,
    for any writing [r'] of the bounds [r]. *)
Lemma rebase_landmark_closed_form (image_h image_w : Q) (r r' : Box)
    (p : Landmark) :
  box_eq r r' -> 0 < region_height r -> 0 < region_width r ->
  landmark_eq (rebase_landmark image_h image_w r p)
    (spec_rebase_landmark image_h image_w r' p).
Proof.
  destruct r as [[[ymin xmin] ymax] xmax].
  destruct r' as [[[ymin' xmin'] ymax'] xmax']. destruct p as [y x].
  unfold box_eq, landmark_eq, rebase_landmark, spec_rebase_landmark,
    region_height, region_width, region_ymin, region_xmin, region_ymax,
    region_xmax.
  cbn [fst snd]. intros (Hymin & Hxmin & Hymax & Hxmax) Hh Hw.
  rewrite <- Hymin, <- Hxmin, <- Hymax, <- Hxmax. split; field; lra.
Qed.

Lemma crop_rebases_in_closed_form
    (image image' : Image) (landmarks landmarks' : Landmarks) (box : Box) :
  crop image landmarks box = Ok (image', landmarks') ->
  let image_h := inject_Z (dim0 image) in
  let image_w := inject_Z (dim1 image) in
  let r := quarter_crop_region image_h image_w box in
  Forall2 (fun old new => landmark_eq new (spec_rebase_landmark image_h image_w r old))
    landmarks landmarks'.
Proof.
  intros Hcrop. pose proof (crop_ok_extents _ _ _ _ _ Hcrop) as Hext.
  apply crop_ok in Hcrop. cbv zeta in *.
  destruct Hcrop as [_ ->]. destruct Hext as [Hh Hw].
  induction landmarks as [| p rest IH]; cbn [map]; constructor.
  - apply rebase_landmark_closed_form;
      [apply crop_region_quarter | exact Hh | exact Hw].
  - exact IH.
Qed.

(** C2. Every landmark that [crop] returns is
    (old * image_extent - crop_origin) / crop_extent, y with the ymin and
    the height of the crop and x with its xmin and its width, where the
    origin and the extent are those of the box in pixels, grown by a
    quarter of its size on each side (as the code grows it) and cut to the
    image; the landmarks keep their number and order. *)
Theorem crop_rebases_landmarks
    (image image' : Image) (landmarks landmarks' : Landmarks) (box : Box) :
  crop image landmarks box = Ok (image', landmarks') ->
  let image_h := inject_Z (dim0 image) in
  let image_w := inject_Z (dim1 image) in
  let '(ymin, xmin, ymax, xmax) := box in
  let h := ymax * image_h - ymin * image_h in
  let w := xmax * image_w - xmin * image_w in
  let crop_ymin := Qmax (ymin * image_h - (1 # 4) * h) 0 in
  let crop_xmin := Qmax (xmin * image_w - (1 # 4) * w) 0 in
  let crop_ymax := Qmin (ymax * image_h + (1 # 4) * h) image_h in
  let crop_xmax := Qmin (xmax * image_w + (1 # 4) * w) image_w in
  Forall2
    (fun old new =>
       fst new == (fst old * image_h - crop_ymin) / (crop_ymax - crop_ymin) /\
       snd new == (snd old * image_w - crop_xmin) / (crop_xmax - crop_xmin))
    landmarks landmarks'.
Proof.
  intros Hcrop. apply crop_rebases_in_closed_form in Hcrop.
  destruct box as [[[ymin xmin] ymax] xmax]. exact Hcrop.
Qed.

(** C5. An input whose grown and cut region has zero height or zero
    width yields no image: the window is refused with an error before
    anything is cut out. And for a clipped box of strictly positive height
    and width in pixels, both divisors of the landmark rebasing, the
    region's height and width, are strictly positive. *)
Theorem crop_degenerate_region
    (image : Image) (landmarks : Landmarks) (box : Box) :
  let image_h := to_float (dim0 image) in
  let image_w := to_float (dim1 image) in
  let r := crop_region image_h image_w box in
  (region_height r == 0 \/ region_width r == 0 ->
   exists msg, crop image landmarks box = Raise (InvalidArgumentError msg)) /\
  (crop_precondition image_h image_w box ->
   0 < region_height r /\ 0 < region_width r).
Proof.
  cbv zeta. split.
  - intros Hzero. unfold crop.
    destruct (crop_region (to_float (dim0 image)) (to_float (dim1 image)) box)
      as [[[ymin xmin] ymax] xmax].
    unfold crop_window, region_height, region_width in *. simpl in Hzero.
    destruct (crop_to_bounding_box_empty image (to_int32 ymin) (to_int32 xmin)
                (to_int32 (ymax - ymin)) (to_int32 (xmax - xmin)))
      as [msg Hmsg].
    + destruct Hzero as [H | H]; [left | right];
        rewrite (to_int32_zero _ H); lia.
    + exists msg. rewrite Hmsg. reflexivity.
  - intros Hpre. apply crop_precondition_extents in Hpre. cbv zeta in Hpre.
    tauto.
Qed.

(** C8. Under the precondition of [crop], the affine map of the landmarks
    followed by its inverse (new * crop_extent + crop_origin, over the
    extent of the image) gives back every coordinate, exactly. *)
Theorem crop_landmark_round_trip
    (image_h image_w : Q) (box : Box) (p : Landmark) :
  crop_precondition image_h image_w box ->
  let r := crop_region image_h image_w box in
  landmark_eq
    (uncrop_landmark image_h image_w r (rebase_landmark image_h image_w r p)) p.
Proof.
  intros Hpre. apply crop_precondition_extents in Hpre. cbv zeta in *.
  destruct (crop_region image_h image_w box) as [[[ymin xmin] ymax] xmax].
  destruct p as [y x].
  unfold region_height, region_width in Hpre; simpl in Hpre.
  destruct Hpre as (Hh & Hw & Hih & Hiw).
  unfold landmark_eq, uncrop_landmark, rebase_landmark,
    region_height, region_width; simpl.
  split; field; split; lra.
Qed.

Lemma quarter_region_origin (image_h image_w : Q) (box : Box) :
  0 <= region_ymin (quarter_crop_region image_h image_w box) /\
  0 <= region_xmin (quarter_crop_region image_h image_w box).
Proof.
  destruct box as [[[ymin xmin] ymax] xmax].
  unfold quarter_crop_region, region_ymin, region_xmin.
  split; apply Q.le_max_r.
Qed.

Lemma whole_floor (q : Q) : whole q -> inject_Z (Qfloor q) == q.
Proof.
  intros [z Hz]. rewrite (Qfloor_comp q (inject_Z z) Hz), Qfloor_Z.
  symmetry. exact Hz.
Qed.

Lemma whole_minus (a b : Q) : whole a -> whole b -> whole (b - a).
Proof.
  intros [x Hx] [y Hy]. exists (y - x)%Z. rewrite Hx, Hy.
  unfold Z.sub. rewrite inject_Z_plus, inject_Z_opp. reflexivity.
Qed.

(** The image of a successful [crop]: the window at the floors of the
    exact origin and of the exact extents. *)
Lemma crop_cuts_at_floors
    (image image' : Image) (landmarks landmarks' : Landmarks) (box : Box) :
  crop image landmarks box = Ok (image', landmarks') ->
  let r :=
    quarter_crop_region (inject_Z (dim0 image)) (inject_Z (dim1 image)) box in
  image' =
  mkTensor3 (Qfloor (region_height r)) (Qfloor (region_width r)) (dim2 image)
    (fun i j k =>
       at3 image (Qfloor (region_ymin r) + i) (Qfloor (region_xmin r) + j) k).
Proof.
  intros Hcrop. pose proof (crop_ok_extents _ _ _ _ _ Hcrop) as Hext.
  apply crop_ok in Hcrop. cbv zeta in *. destruct Hcrop as [Hwindow _].
  apply crop_to_bounding_box_ok in Hwindow.
  destruct Hwindow as (_ & _ & _ & _ & _ & _ & ->).
  destruct Hext as [Hh Hw].
  pose proof (crop_region_quarter (to_float (dim0 image))
                (to_float (dim1 image)) box) as Hquarter.
  pose proof (quarter_region_origin (to_float (dim0 image))
                (to_float (dim1 image)) box) as [Hy0 Hx0].
  unfold to_float in *.
  set (c := crop_region (inject_Z (dim0 image)) (inject_Z (dim1 image)) box)
    in *.
  set (r := quarter_crop_region (inject_Z (dim0 image))
              (inject_Z (dim1 image)) box) in *.
  destruct Hquarter as (Hymin & Hxmin & Hymax & Hxmax).
  assert (Hheight : region_height c == region_height r)
    by (unfold region_height; rewrite Hymin, Hymax; reflexivity).
  assert (Hwidth : region_width c == region_width r)
    by (unfold region_width; rewrite Hxmin, Hxmax; reflexivity).
  rewrite (to_int32_comp _ _ Hymin), (to_int32_comp _ _ Hxmin),
    (to_int32_comp _ _ Hheight), (to_int32_comp _ _ Hwidth).
  rewrite (to_int32_floor _ Hy0), (to_int32_floor _ Hx0).
  rewrite (to_int32_floor (region_height r))
    by (rewrite <- Hheight; apply Qlt_le_weak, Hh).
  rewrite (to_int32_floor (region_width r))
    by (rewrite <- Hwidth; apply Qlt_le_weak, Hw).
  reflexivity.
Qed.

(** C10. [crop] cuts the image at the truncated bounds: the result has
    floor(ymax - ymin) rows and floor(xmax - xmin) columns, and its pixel
    (i, j) is the pixel (floor(ymin) + i, floor(xmin) + j) of the image;
    the landmarks are rebased with the exact ymin, xmin, ymax - ymin and
    xmax - xmin. Whenever all four bounds are whole the window cut out is
    the frame of the landmarks, and for some input whose bounds are not all
    whole it is not. *)
Theorem crop_window_and_frame :
  (forall (image image' : Image) (landmarks landmarks' : Landmarks)
          (box : Box),
      crop image landmarks box = Ok (image', landmarks') ->
      let image_h := inject_Z (dim0 image) in
      let image_w := inject_Z (dim1 image) in
      let r := quarter_crop_region image_h image_w box in
      image' =
      mkTensor3 (Qfloor (region_height r)) (Qfloor (region_width r))
        (dim2 image)
        (fun i j k =>
           at3 image (Qfloor (region_ymin r) + i) (Qfloor (region_xmin r) + j)
             k) /\
      Forall2
        (fun old new =>
           landmark_eq new (spec_rebase_landmark image_h image_w r old))
        landmarks landmarks' /\
      (whole_region r ->
       inject_Z (Qfloor (region_ymin r)) == region_ymin r /\
       inject_Z (Qfloor (region_xmin r)) == region_xmin r /\
       inject_Z (dim0 image') == region_height r /\
       inject_Z (dim1 image') == region_width r)) /\
  (exists (image image' : Image) (landmarks landmarks' : Landmarks)
          (box : Box),
      crop image landmarks box = Ok (image', landmarks') /\
      let r :=
        quarter_crop_region (inject_Z (dim0 image)) (inject_Z (dim1 image))
          box in
      ~ whole_region r /\
      ~ inject_Z (Qfloor (region_ymin r)) == region_ymin r /\
      ~ inject_Z (dim0 image') == region_height r).
Proof.
  split.
  - intros image image' landmarks landmarks' box Hcrop. cbv zeta.
    pose proof (crop_cuts_at_floors _ _ _ _ _ Hcrop) as Himage.
    cbv zeta in Himage. split; [exact Himage |]. split.
    + exact (crop_rebases_in_closed_form _ _ _ _ _ Hcrop).
    + intros (Hymin & Hxmin & Hymax & Hxmax). rewrite Himage.
      cbn [dim0 dim1]. repeat split; apply whole_floor; try assumption.
      * unfold region_height. apply whole_minus; assumption.
      * unfold region_width. apply whole_minus; assumption.
  - destruct (crop gray_image corner_landmarks corner_box)
      as [[image' landmarks'] | e] eqn:Hcrop.
    + exists gray_image, image', corner_landmarks, landmarks', corner_box.
      split; [exact Hcrop |]. cbv zeta.
      pose proof (crop_cuts_at_floors _ _ _ _ _ Hcrop) as Himage.
      cbv zeta in Himage.
      assert (Hfloor :
                ~ inject_Z
                    (Qfloor
                       (region_ymin
                          (quarter_crop_region (inject_Z (dim0 gray_image))
                             (inject_Z (dim1 gray_image)) corner_box))) ==
                  region_ymin
                    (quarter_crop_region (inject_Z (dim0 gray_image))
                       (inject_Z (dim1 gray_image)) corner_box))
        by (intros H; vm_compute in H; discriminate).
      split; [| split].
      * intros (Hymin & _). apply Hfloor, whole_floor, Hymin.
      * exact Hfloor.
      * rewrite Himage. cbn [dim0]. intros H. vm_compute in H. discriminate.
    + exfalso.
      assert (Hok : is_ok (crop gray_image corner_landmarks corner_box) = true)
        by (vm_compute; reflexivity).
      rewrite Hcrop in Hok. discriminate.
Qed.

(** * Properties of the per-example transform *)

(** ** Shapes and value ranges through the image operations *)

Lemma convert_image_dtype_unit (image : Tensor3 byte) :
  values_in_unit (convert_image_dtype image).
Proof.
  intros i j k _ _ _. simpl.
  pose proof (Byte.to_N_bounded (at3 image i j k)) as Hb.
  set (n := Byte.to_N (at3 image i j k)) in *.
  assert (Hz : (0 <= Z.of_N n <= 255)%Z) by lia.
  destruct Hz as [Hlo Hhi].
  rewrite Zle_Qle in Hlo, Hhi.
  generalize dependent (inject_Z (Z.of_N n)). intros q Hlo Hhi.
  change (inject_Z 0) with 0 in Hlo. change (inject_Z 255) with 255 in Hhi.
  lra.
Qed.

Lemma crop_to_bounding_box_unit (image image' : Image) (oy ox th tw : Z) :
  crop_to_bounding_box image oy ox th tw = Ok image' ->
  values_in_unit image ->
  values_in_unit image' /\ dim2 image' = dim2 image.
Proof.
  intros Hcrop Hunit. apply crop_to_bounding_box_ok in Hcrop.
  destruct Hcrop as (Hoy & Hox & Hth & Htw & Hh & Hw & ->).
  split; [| reflexivity].
  intros i j k Hi Hj Hk. simpl in *. apply Hunit; lia.
Qed.

(** The two source indices of the bilinear kernel lie inside the input and
    the weight lies in [0, 1]. *)
Lemma interpolation_bounds (out_size in_size i : Z) :
  (0 < out_size)%Z -> (0 < in_size)%Z -> (0 <= i < out_size)%Z ->
  let '(lower, upper, lerp) := interpolation out_size in_size i in
  (0 <= lower < in_size)%Z /\ (0 <= upper < in_size)%Z /\ 0 <= lerp <= 1.
Proof.
  intros Hout Hin Hi. unfold interpolation, to_float.
  set (pos := inject_Z i * (inject_Z in_size / inject_Z out_size)).
  assert (Hout' : 0 < inject_Z out_size)
    by (change 0 with (inject_Z 0); rewrite <- Zlt_Qlt; exact Hout).
  assert (Hin' : 0 < inject_Z in_size)
    by (change 0 with (inject_Z 0); rewrite <- Zlt_Qlt; exact Hin).
  assert (Hi0 : 0 <= inject_Z i)
    by (change 0 with (inject_Z 0); rewrite <- Zle_Qle; lia).
  assert (Hi1 : inject_Z i < inject_Z out_size)
    by (rewrite <- Zlt_Qlt; lia).
  assert (Hscale : 0 < inject_Z in_size / inject_Z out_size)
    by (apply Qlt_shift_div_l; [exact Hout' | lra]).
  assert (Hpos0 : 0 <= pos) by (unfold pos; nra).
  assert (Hpos1 : pos < inject_Z in_size).
  { unfold pos.
    assert (Heq : inject_Z in_size ==
                  inject_Z out_size * (inject_Z in_size / inject_Z out_size))
      by (field; lra).
    rewrite Heq at 2. nra. }
  destruct (to_int32_bounds pos Hpos0) as (Hl0 & Hl1 & Hl2).
  assert (Hlt : (to_int32 pos < in_size)%Z)
    by (rewrite Zlt_Qlt; lra).
  repeat split; try lia; lra.
Qed.

Lemma lerp_unit (a b t : Q) :
  0 <= a <= 1 -> 0 <= b <= 1 -> 0 <= t <= 1 -> 0 <= a + (b - a) * t <= 1.
Proof. intros Ha Hb Ht. nra. Qed.

Lemma resize_images_unit (image image' : Image) (new_height new_width : Z) :
  resize_images image (new_height, new_width) = Ok image' ->
  values_in_unit image ->
  values_in_unit image' /\
  shape3 image' = (new_height, new_width, dim2 image).
Proof.
  unfold resize_images.
  destruct ((new_height <=? 0) || (new_width <=? 0))%Z eqn:Hnew;
    [discriminate |].
  destruct ((dim0 image <=? 0) || (dim1 image <=? 0))%Z eqn:Hold;
    [discriminate |].
  apply orb_false_elim in Hnew, Hold.
  destruct Hnew as [Hnh Hnw]. destruct Hold as [Hoh How].
  apply Z.leb_gt in Hnh, Hnw, Hoh, How.
  intros Heq Hunit. injection Heq as <-. split; [| reflexivity].
  intros i j k Hi Hj Hk. cbn [dim0 dim1 dim2] in Hi, Hj, Hk. cbn [at3].
  pose proof (interpolation_bounds new_height (dim0 image) i Hnh Hoh Hi) as Hy.
  pose proof (interpolation_bounds new_width (dim1 image) j Hnw How Hj) as Hx.
  cbv beta iota zeta delta [interpolation] in Hy, Hx.
  destruct Hy as (Htop & Hbottom & Hyl). destruct Hx as (Hleft & Hright & Hxl).
  apply lerp_unit; [apply lerp_unit | apply lerp_unit | exact Hyl];
    try exact Hxl; apply Hunit; assumption.
Qed.

Lemma transpose_201_unit (image : Image) :
  values_in_unit image -> values_in_unit (transpose_201 image).
Proof.
  intros Hunit c i j Hc Hi Hj. simpl in *. apply Hunit; assumption.
Qed.

(** ** The decoder *)

Lemma length_reshape_rows (flat : list Q) (n : nat) :
  length flat = (2 * n)%nat -> length (reshape_rows flat) = n.
Proof.
  revert flat. induction n as [| n IH]; intros flat Hlen.
  - destruct flat; [reflexivity | discriminate].
  - destruct flat as [| y [| x rest]]; try (simpl in Hlen; lia).
    simpl. f_equal. apply IH. simpl in Hlen. lia.
Qed.

Lemma parse_single_example_ok (n : nat) (example_proto parsed : Example) :
  parse_single_example n example_proto = Ok parsed ->
  parsed = example_proto /\
  length (feature_landmarks example_proto) = (2 * n)%nat.
Proof.
  unfold parse_single_example.
  destruct (Nat.eqb_spec (length (feature_landmarks example_proto)) (2 * n));
    [| discriminate].
  intros Heq. injection Heq as <-. split; [reflexivity | assumption].
Qed.

(** ** The two paths of the transform *)

Section Transform.

Variable env : Environment.

(** The augmented path is the composition of the specification, and
    records the stages in its order. *)
Lemma augmentation_fn_unfolded (self : Attributes) (image : Image) (box : Box)
    (landmarks : Landmarks) (st : State env) :
  _augmentation_fn env self image box landmarks st =
  match spec_augmented env self image box landmarks (state_rng st) with
  | Ok (out, rng) => Ok (out, mkState env rng (state_stages st ++ augmentation_order))
  | Raise e => Raise e
  end.
Proof.
  unfold _augmentation_fn, spec_augmented, resize_step, bind, stage, random,
    lift, ret. simpl.
  destruct (random_rotation env image box landmarks 30 (state_rng st))
    as [[[rotated box'] landmarks'] rng1].
  destruct (resize_images rotated (image_height self, image_width self))
    as [resized | e]; [| reflexivity]. simpl.
  destruct (random_color_manipulations env resized 0.15 0.05 rng1)
    as [colored rng2]. simpl.
  destruct (random_pixel_value_scale env colored 0.85 1.15 0.15 rng2)
    as [scaled rng3]. simpl.
  destruct (random_gaussian_blur env scaled 0.3 5 rng3) as [blurred rng4].
  simpl.
  destruct (random_flip_left_right env blurred landmarks' rng4)
    as [[flipped landmarks''] rng5]. simpl.
  unfold augmentation_order. rewrite <- !app_assoc. reflexivity.
Qed.

(** The statement that resizes leaves the landmarks as they are. *)
Lemma resize_step_ok (self : Attributes) (image image' : Image)
    (landmarks landmarks' : Landmarks) (st st' : State env) :
  resize_step env self (image, landmarks) st = Ok ((image', landmarks'), st') ->
  resize_images image (image_height self, image_width self) = Ok image' /\
  landmarks' = landmarks /\
  st' = mkState env (state_rng st) (state_stages st ++ [StageResize]).
Proof.
  unfold resize_step, bind, stage, lift, ret. simpl.
  destruct (resize_images image (image_height self, image_width self));
    [| discriminate].
  intros Heq. injection Heq as <- <- <-. repeat split.
Qed.

(** The path without augmentation: parse, crop the clipped box, resize,
    transpose. *)
Lemma parse_and_preprocess_plain (self : Attributes) (example_proto : Example)
    (st st' : State env) (out : Element) :
  augmentation self = false ->
  _parse_and_preprocess env self example_proto st = Ok (out, st') ->
  let image := convert_image_dtype (decode_jpeg (feature_image example_proto)) in
  let box := clip_box (feature_ymin example_proto, feature_xmin example_proto,
                       feature_ymax example_proto, feature_xmax example_proto) in
  let landmarks :=
    clip_landmarks (reshape_rows (feature_landmarks example_proto)) in
  exists cropped resized,
    length (feature_landmarks example_proto) = (2 * num_landmarks self)%nat /\
    crop image landmarks box = Ok (cropped, snd out) /\
    resize_images cropped (image_height self, image_width self) = Ok resized /\
    fst out = transpose_201 resized /\
    state_stages st' = state_stages st ++ [StageCrop; StageResize].
Proof.
  intros Haug. unfold _parse_and_preprocess. rewrite Haug.
  unfold bind at 1. unfold lift at 1.
  destruct (parse_single_example (num_landmarks self) example_proto)
    as [parsed | e] eqn:Hparse; [| discriminate].
  apply parse_single_example_ok in Hparse. destruct Hparse as [-> Hlen].
  cbv zeta. unfold bind at 1. unfold bind at 1. unfold stage at 1.
  unfold lift at 1.
  destruct (crop _ _ _) as [[cropped landmarks'] | e] eqn:Hcrop;
    [| discriminate].
  destruct (resize_step env self (cropped, landmarks') _)
    as [[[resized landmarks''] st''] | e] eqn:Hresize; [| discriminate].
  apply resize_step_ok in Hresize. destruct Hresize as (Hresize & -> & ->).
  unfold ret. intros Heq. injection Heq as <- <-.
  exists cropped, resized. simpl. repeat split; try assumption.
  rewrite <- app_assoc. reflexivity.
Qed.

(** The path with augmentation: parse, then [_augmentation_fn], then
    transpose. *)
Lemma parse_and_preprocess_augmented (self : Attributes)
    (example_proto : Example) (st st' : State env) (out : Element) :
  augmentation self = true ->
  _parse_and_preprocess env self example_proto st = Ok (out, st') ->
  let image := convert_image_dtype (decode_jpeg (feature_image example_proto)) in
  let box := clip_box (feature_ymin example_proto, feature_xmin example_proto,
                       feature_ymax example_proto, feature_xmax example_proto) in
  let landmarks :=
    clip_landmarks (reshape_rows (feature_landmarks example_proto)) in
  exists augmented rng,
    length (feature_landmarks example_proto) = (2 * num_landmarks self)%nat /\
    spec_augmented env self image box landmarks (state_rng st) =
      Ok ((augmented, snd out), rng) /\
    fst out = transpose_201 augmented /\
    st' = mkState env rng (state_stages st ++ augmentation_order).
Proof.
  intros Haug. unfold _parse_and_preprocess. rewrite Haug.
  unfold bind at 1. unfold lift at 1.
  destruct (parse_single_example (num_landmarks self) example_proto)
    as [parsed | e] eqn:Hparse; [| discriminate].
  apply parse_single_example_ok in Hparse. destruct Hparse as [-> Hlen].
  cbv zeta. unfold bind at 1. rewrite augmentation_fn_unfolded.
  destruct (spec_augmented _ _ _ _ _ _) as [[[augmented landmarks'] rng] | e];
    [| discriminate].
  unfold ret. intros Heq. injection Heq as <- <-.
  exists augmented, rng. simpl. repeat split; assumption.
Qed.

Lemma length_clip_landmarks (landmarks : Landmarks) :
  length (clip_landmarks landmarks) = length landmarks.
Proof. unfold clip_landmarks. apply length_map. Qed.

(** Under the contract, the augmented composition yields an image of the
    target size with values in [0, 1] and as many landmarks as it got. *)
Lemma spec_augmented_shape (self : Attributes) (image out : Image) (box : Box)
    (landmarks landmarks' : Landmarks) (rng rng' : Rng env) :
  augmentations_contract env ->
  values_in_unit image ->
  spec_augmented env self image box landmarks rng = Ok ((out, landmarks'), rng') ->
  shape3 out = (image_height self, image_width self, dim2 image) /\
  values_in_unit out /\ length landmarks' = length landmarks.
Proof.
  intros Hc Hunit. unfold spec_augmented.
  pose proof (rotation_contract env Hc image box landmarks 30 rng) as Hrot.
  destruct (random_rotation env image box landmarks 30 rng)
    as [[[rotated box'] landmarks1] rng1].
  destruct Hrot as [[Hrs Hru] Hrl].
  destruct (resize_images rotated (image_height self, image_width self))
    as [resized | e] eqn:Hresize; [| discriminate].
  apply resize_images_unit in Hresize; [| auto].
  destruct Hresize as [Hzu Hzs].
  pose proof (color_contract env Hc resized 0.15 0.05 rng1) as [Hcs Hcu].
  destruct (random_color_manipulations env resized 0.15 0.05 rng1)
    as [colored rng2]. simpl in Hcs, Hcu.
  pose proof (scale_contract env Hc colored 0.85 1.15 0.15 rng2) as [Hss Hsu].
  destruct (random_pixel_value_scale env colored 0.85 1.15 0.15 rng2)
    as [scaled rng3]. simpl in Hss, Hsu.
  pose proof (blur_contract env Hc scaled 0.3 5 rng3) as [Hbs Hbu].
  destruct (random_gaussian_blur env scaled 0.3 5 rng3) as [blurred rng4].
  simpl in Hbs, Hbu.
  pose proof (flip_contract env Hc blurred landmarks1 rng4) as Hflip.
  destruct (random_flip_left_right env blurred landmarks1 rng4)
    as [[flipped landmarks2] rng5].
  destruct Hflip as [[Hfs Hfu] Hfl].
  intros Heq. injection Heq as <- <- <-.
  split; [| split].
  - rewrite Hfs, Hbs, Hss, Hcs, Hzs.
    unfold shape3 in Hrs. injection Hrs as _ _ ->. reflexivity.
  - auto.
  - congruence.
Qed.

(** Every element the map function yields has the shape of the pipeline
    and pixel values in [0, 1]. *)
Lemma map_fn_shape (self : Attributes) (i : nat) (example_proto : Example)
    (out : Element) :
  (augmentation self = true -> augmentations_contract env) ->
  map_fn env self i example_proto = Ok out ->
  shape3 (fst out) = (3%Z, image_height self, image_width self) /\
  values_in_unit (fst out) /\
  length (snd out) = num_landmarks self.
Proof.
  intros Hc. unfold map_fn.
  destruct (_parse_and_preprocess env self example_proto _)
    as [[out' st'] | e] eqn:Hrun; [| discriminate].
  intros Heq. injection Heq as ->.
  pose proof (convert_image_dtype_unit
                (decode_jpeg (feature_image example_proto))) as Hunit.
  destruct (augmentation self) eqn:Haug.
  - apply parse_and_preprocess_augmented in Hrun; [| exact Haug].
    cbv zeta in Hrun.
    destruct Hrun as (augmented & rng & Hlen & Hspec & Himage & _).
    apply spec_augmented_shape in Hspec; [| auto | exact Hunit].
    destruct Hspec as (Hshape & Hu & Hl).
    rewrite Himage. split; [| split].
    + unfold shape3 in *. simpl. injection Hshape as -> -> ->. reflexivity.
    + apply transpose_201_unit, Hu.
    + rewrite Hl, length_clip_landmarks. apply length_reshape_rows, Hlen.
  - apply parse_and_preprocess_plain in Hrun; [| exact Haug].
    cbv zeta in Hrun.
    destruct Hrun as (cropped & resized & Hlen & Hcrop & Hresize & Himage & _).
    apply crop_ok in Hcrop. cbv zeta in Hcrop. destruct Hcrop as [Hwindow Hl].
    apply crop_to_bounding_box_unit in Hwindow; [| exact Hunit].
    destruct Hwindow as [Hcu Hcd].
    apply resize_images_unit in Hresize; [| exact Hcu].
    destruct Hresize as [Hzu Hzs].
    rewrite Himage. split; [| split].
    + unfold shape3 in *. simpl. injection Hzs as -> -> ->.
      rewrite Hcd. reflexivity.
    + apply transpose_201_unit, Hzu.
    + rewrite Hl, length_map, length_clip_landmarks.
      apply length_reshape_rows, Hlen.
Qed.

End Transform.

(** * Properties of the stream of batches *)

(** ** Repeat *)

Lemma repeat_once {A : Type} (ds : Dataset A) (i : nat) :
  repeat (Some 1%nat) ds i = nth_error (ds 0%nat) i.
Proof.
  unfold repeat. cbn [repeat_at].
  destruct (Nat.ltb_spec i (length (ds 0%nat))) as [Hlt | Hge];
    [reflexivity |].
  transitivity (@None A).
  - destruct i; reflexivity.
  - symmetry. apply nth_error_None. exact Hge.
Qed.

Lemma repeat_at_forever {A : Type} (ds : Dataset A) :
  (forall pass, (0 < length (ds pass))%nat) ->
  forall fuel pass i, (i < fuel)%nat ->
    exists a, repeat_at ds fuel None pass i = Some a.
Proof.
  intros Hpos. induction fuel as [| fuel IH]; intros pass i Hi; [lia |].
  cbn [repeat_at].
  destruct (Nat.ltb_spec i (length (ds pass))) as [Hlt | Hge].
  - destruct (nth_error (ds pass) i) as [a |] eqn:Hnth.
    + exists a. reflexivity.
    + apply nth_error_None in Hnth. lia.
  - cbn [option_map]. apply IH. specialize (Hpos pass). lia.
Qed.

Lemma repeat_forever {A : Type} (ds : Dataset A) (i : nat) :
  (forall pass, (0 < length (ds pass))%nat) ->
  exists a, repeat None ds i = Some a.
Proof.
  intros Hpos. unfold repeat. apply repeat_at_forever; [exact Hpos | lia].
Qed.

(** ** Stacking *)

Lemma split_maps {A B : Type} (l : list (A * B)) :
  split l = (map fst l, map snd l).
Proof.
  induction l as [| [a b] l IH]; [reflexivity |].
  simpl. rewrite IH. reflexivity.
Qed.

Lemma stack_ok (elements : list Element) (b : Batch) :
  stack elements = Ok b ->
  b = (map fst elements, map snd elements).
Proof.
  unfold stack. destruct elements as [| first rest].
  - intros Heq. injection Heq as <-. reflexivity.
  - destruct (forallb (same_shape first) (first :: rest)); [| discriminate].
    intros Heq. injection Heq as <-. exact (split_maps (first :: rest)).
Qed.

Lemma well_shaped_same_shape (self : Attributes) (a b : Element) :
  well_shaped self a = true -> well_shaped self b = true ->
  same_shape a b = true.
Proof.
  unfold well_shaped, same_shape. intros Ha Hb.
  repeat (apply andb_prop in Ha; destruct Ha as [Ha ?]).
  repeat (apply andb_prop in Hb; destruct Hb as [Hb ?]).
  repeat match goal with
         | H : (_ =? _)%Z = true |- _ => apply Z.eqb_eq in H
         | H : Nat.eqb _ _ = true |- _ => apply Nat.eqb_eq in H
         end.
  repeat (apply andb_true_intro; split);
    first [apply Z.eqb_eq | apply Nat.eqb_eq]; congruence.
Qed.

Lemma stack_well_shaped (self : Attributes) (elements : list Element) :
  Forall (fun e => well_shaped self e = true) elements ->
  stack elements = Ok (map fst elements, map snd elements).
Proof.
  intros Hall. unfold stack. destruct elements as [| first rest];
    [reflexivity |].
  replace (forallb (same_shape first) (first :: rest)) with true.
  - rewrite split_maps. reflexivity.
  - symmetry. apply forallb_forall. intros e He.
    rewrite Forall_forall in Hall.
    apply (well_shaped_same_shape self); apply Hall; [left; reflexivity | exact He].
Qed.

(** ** One pull of the iterator *)

(** A pull that yields a batch took consecutive elements of the stream,
    all of them without error, and stopped short of [n] only at the end of
    the stream. *)
Lemma pull_ok (s : Stream (Result Element)) (n : nat) :
  forall (pos : nat) (acc : list Element) (b : Batch) (pos' : nat),
    pull s n pos acc = (Ok b, pos') ->
    exists new : list Element,
      stack (rev acc ++ new) = Ok b /\
      pos' = (pos + length new)%nat /\
      (length new <= n)%nat /\
      (forall j e, nth_error new j = Some e -> s (pos + j)%nat = Some (Ok e)) /\
      (length new = n \/ s pos' = None) /\
      (n = 0%nat \/ rev acc ++ new <> []).
Proof.
  induction n as [| n IH]; intros pos acc b pos' Hpull; cbn [pull] in Hpull.
  - injection Hpull as Hstack <-. exists []. rewrite app_nil_r.
    repeat split; auto; try (simpl; lia).
    intros j e Hnth. destruct j; discriminate.
  - destruct (s pos) as [[a | e] |] eqn:Hs.
    + apply IH in Hpull.
      destruct Hpull as (new & Hstack & -> & Hlen & Hnth & Hend & Hne).
      exists (a :: new). cbn [rev] in Hstack. rewrite <- app_assoc in Hstack.
      cbn [app] in Hstack. repeat split.
      * exact Hstack.
      * simpl. lia.
      * simpl. lia.
      * intros j e Hj. destruct j as [| j].
        -- injection Hj as <-. rewrite Nat.add_0_r. exact Hs.
        -- replace (pos + S j)%nat with (S pos + j)%nat by lia.
           apply Hnth. exact Hj.
      * destruct Hend as [Hend | Hend]; [left; simpl; lia | right; exact Hend].
      * right. destruct (rev acc); discriminate.
    + discriminate.
    + destruct acc as [| a acc]; [discriminate |].
      injection Hpull as Hstack <-. exists []. rewrite app_nil_r.
      repeat split; auto; try (simpl; lia).
      * intros j e Hnth. destruct j; discriminate.
      * right. cbn [rev]. destruct (rev acc); discriminate.
Qed.

Lemma pull_end (s : Stream (Result Element)) (n pos : nat) :
  s pos = None ->
  pull s (S n) pos [] = (Raise OutOfRangeError, pos).
Proof. intros Hs. cbn [pull]. rewrite Hs. reflexivity. Qed.

(** On a stream of [n] well shaped elements a pull takes up to [m] of
    them. *)
Lemma pull_clean (self : Attributes) (s : Stream (Result Element)) (n : nat) :
  (forall j, (j < n)%nat ->
     exists e, s j = Some (Ok e) /\ well_shaped self e = true) ->
  (forall j, (n <= j)%nat -> s j = None) ->
  forall (m pos : nat) (acc : list Element),
    Forall (fun e => well_shaped self e = true) acc ->
    acc <> [] \/ (0 < m /\ pos < n)%nat ->
    exists b : Batch,
      pull s m pos acc = (Ok b, (pos + Nat.min m (n - pos))%nat) /\
      length (fst b) = (length acc + Nat.min m (n - pos))%nat /\
      length (snd b) = (length acc + Nat.min m (n - pos))%nat.
Proof.
  intros Hin Hout. induction m as [| m IH]; intros pos acc Hacc Hstart.
  - cbn [pull]. exists (map fst (rev acc), map snd (rev acc)).
    rewrite (stack_well_shaped self) by (apply Forall_rev, Hacc).
    cbn [fst snd Nat.min]. rewrite !length_map, length_rev, !Nat.add_0_r.
    repeat split; reflexivity.
  - cbn [pull]. destruct (Nat.lt_ge_cases pos n) as [Hlt | Hge].
    + destruct (Hin pos Hlt) as (e & Hs & He). rewrite Hs.
      destruct (IH (S pos) (e :: acc)) as (b & Hpull & Hfst & Hsnd).
      * constructor; assumption.
      * left. discriminate.
      * exists b. rewrite Hpull, Hfst, Hsnd. cbn [length].
        replace (n - pos)%nat with (S (n - S pos)) by lia.
        cbn [Nat.min]. repeat split; try lia. f_equal. lia.
    + rewrite (Hout pos Hge).
      destruct acc as [| a acc];
        [destruct Hstart as [Hne | Hlt]; [congruence | lia] |].
      exists (map fst (rev (a :: acc)), map snd (rev (a :: acc))).
      rewrite (stack_well_shaped self) by (apply Forall_rev, Hacc).
      cbn [fst snd]. rewrite !length_map, length_rev.
      replace (n - pos)%nat with 0%nat by lia.
      rewrite Nat.min_0_r, !Nat.add_0_r. repeat split; reflexivity.
Qed.

(** ** Successive calls of [get_batch] *)

Lemma get_batch_nth_advance (k : nat) (self : Pipeline) :
  get_batch_nth k self = fst (get_batch (advance k self)).
Proof.
  revert self. induction k as [| k IH]; intros self; [reflexivity |].
  cbn [get_batch_nth advance]. apply IH.
Qed.

Lemma advance_succ (k : nat) (self : Pipeline) :
  advance (S k) self = snd (get_batch (advance k self)).
Proof.
  revert self. induction k as [| k IH]; intros self; [reflexivity |].
  cbn [advance] in *. apply IH.
Qed.

Lemma get_batch_keeps (self : Pipeline) :
  self_attributes (snd (get_batch self)) = self_attributes self /\
  num_examples (snd (get_batch self)) = num_examples self /\
  iterator_source (iterator (snd (get_batch self))) =
    iterator_source (iterator self).
Proof.
  unfold get_batch, get_next.
  destruct (batched_size (iterator_source (iterator self))).
  - repeat split.
  - destruct (pull _ _ _ _). repeat split.
Qed.

Lemma advance_keeps (k : nat) (self : Pipeline) :
  self_attributes (advance k self) = self_attributes self /\
  num_examples (advance k self) = num_examples self /\
  iterator_source (iterator (advance k self)) =
    iterator_source (iterator self).
Proof.
  induction k as [| k IH]; [repeat split |].
  rewrite advance_succ.
  destruct (get_batch_keeps (advance k self)) as (-> & -> & ->). exact IH.
Qed.

(** ** Construction *)

Section Construction.

Variable env : Environment.

Lemma count_examples_ok (filenames : list string) (acc n : nat) :
  count_examples env filenames acc = Ok n ->
  Forall (fun filename => tf_record_iterator env filename <> []) filenames /\
  n = (acc + length (all_records env filenames))%nat.
Proof.
  revert acc. induction filenames as [| filename rest IH]; intros acc.
  - cbn [count_examples]. intros Heq. injection Heq as <-.
    split; [constructor | simpl; lia].
  - cbn [count_examples]. unfold get_num_samples.
    destruct (Nat.ltb_spec 0 (length (tf_record_iterator env filename)))
      as [Hpos | Hzero]; [| discriminate].
    intros Hrest. apply IH in Hrest. destruct Hrest as [Hall ->]. split.
    + constructor; [| exact Hall].
      intros Hnil. rewrite Hnil in Hpos. simpl in Hpos. lia.
    + unfold all_records. cbn [List.flat_map]. rewrite length_app.
      fold (all_records env rest). lia.
Qed.

Lemma count_examples_empty (filenames : list string) (acc : nat) :
  (exists filename,
      In filename filenames /\ tf_record_iterator env filename = []) ->
  count_examples env filenames acc = Raise AssertionError.
Proof.
  intros (empty & Hin & Hempty). revert acc.
  induction filenames as [| filename rest IH]; intros acc; [destruct Hin |].
  cbn [count_examples]. unfold get_num_samples.
  destruct (Nat.ltb_spec 0 (length (tf_record_iterator env filename)))
    as [Hpos | Hzero]; [| reflexivity].
  destruct Hin as [-> | Hin].
  - rewrite Hempty in Hpos. simpl in Hpos. lia.
  - apply IH, Hin.
Qed.

(** What a successful construction returns. *)
Lemma init_ok (filenames : list string) (batch_size : nat) (image_size : Z * Z)
    (num_landmarks : nat) (repeat_ shuffle augmentation : bool)
    (self : Pipeline) :
  __init__ env filenames batch_size image_size num_landmarks repeat_ shuffle
    augmentation = Ok self ->
  let attributes :=
    mkAttributes (fst image_size) (snd image_size) augmentation batch_size
      num_landmarks in
  Forall (fun filename => tf_record_iterator env filename <> []) filenames /\
  num_examples self = length (all_records env filenames) /\
  (0 < num_examples self)%nat /\
  self_attributes self = attributes /\
  iterator self =
    mkIterator
      (mkBatched
         (map_stream (map_fn env attributes)
            (repeat (if repeat_ then None else Some 1%nat)
               (record_dataset env filenames batch_size shuffle)))
         batch_size) 0.
Proof.
  unfold __init__. destruct image_size as [width height].
  destruct (count_examples env filenames 0) as [n | e] eqn:Hcount;
    [| discriminate].
  apply count_examples_ok in Hcount. destruct Hcount as [Hall ->].
  destruct (Nat.ltb_spec 0 (0 + length (all_records env filenames)))
    as [Hpos | Hzero]; [| discriminate].
  intros Heq. injection Heq as <-. cbv zeta. cbn [fst snd].
  repeat split; auto.
Qed.

(** Every pass of the dataset holds the records of the files, reordered
    when the dataset is shuffled. *)
Lemma record_dataset_permutation (filenames : list string) (batch_size : nat)
    (shuffle : bool) (pass : nat) :
  shuffle_permutes env ->
  Permutation (record_dataset env filenames batch_size shuffle pass)
    (all_records env filenames).
Proof.
  intros Hperm. unfold record_dataset, prefetch, flat_map, shuffle_dataset,
    from_tensor_slices, all_records, TFRecordDataset.
  destruct shuffle.
  - etransitivity; [apply Hperm |].
    apply Permutation_flat_map, Hperm.
  - reflexivity.
Qed.

Lemma record_dataset_length (filenames : list string) (batch_size : nat)
    (shuffle : bool) (pass : nat) :
  shuffle_permutes env ->
  length (record_dataset env filenames batch_size shuffle pass) =
  length (all_records env filenames).
Proof.
  intros Hperm. apply Permutation_length, record_dataset_permutation, Hperm.
Qed.

End Construction.

(** ** Floor and ceiling of the quotient *)

Lemma ceil_div_lt (n b k : nat) :
  (0 < b)%nat -> (k < ceil_div n b)%nat <-> (k * b < n)%nat.
Proof.
  intros Hb. unfold ceil_div. split.
  - intros Hk. destruct (Nat.lt_ge_cases (k * b) n) as [Hlt | Hge];
      [exact Hlt | exfalso].
    assert ((n + b - 1) / b < S k)%nat; [| lia].
    apply Nat.Div0.div_lt_upper_bound. rewrite Nat.mul_succ_r. lia.
  - intros Hk. apply (Nat.lt_le_trans _ (S k)); [lia |].
    apply Nat.div_le_lower_bound; [lia |]. rewrite Nat.mul_succ_r. lia.
Qed.

(** * The claims about the transform and the pipeline *)

Section PipelineClaims.

Variable env : Environment.

(** The position of the iterator after [k] calls on a stream of well
    shaped elements. *)
Lemma advance_position (self : Pipeline) (attributes : Attributes) (n : nat) :
  let source := iterator_source (iterator self) in
  (0 < batched_size source)%nat ->
  iterator_position (iterator self) = 0%nat ->
  (forall j, (j < n)%nat ->
     exists e, batched_elements source j = Some (Ok e) /\
               well_shaped attributes e = true) ->
  (forall j, (n <= j)%nat -> batched_elements source j = None) ->
  forall k,
    iterator_position (iterator (advance k self)) =
    Nat.min (k * batched_size source) n.
Proof.
  cbv zeta. intros Hb Hzero Hin Hout k. induction k as [| k IH].
  - cbn [advance]. rewrite Hzero. reflexivity.
  - rewrite advance_succ.
    destruct (advance_keeps k self) as (_ & _ & Hsource).
    unfold get_batch, get_next. rewrite Hsource.
    destruct (batched_size (iterator_source (iterator self))) as [| b] eqn:Hsize;
      [lia |].
    rewrite IH.
    set (pos := Nat.min (k * S b) n).
    destruct (Nat.lt_ge_cases pos n) as [Hlt | Hge].
    + destruct (pull_clean attributes _ n Hin Hout (S b) pos [])
        as (batch & Hpull & _); [constructor | right; lia |].
      rewrite Hpull. cbn [snd iterator iterator_position]. unfold pos in *. lia.
    + rewrite pull_end by (apply Hout; exact Hge).
      cbn [snd iterator iterator_position]. unfold pos in *. lia.
Qed.

(** X14. In a stream constructed with repeat disabled and a positive batch
    size, whose records are all transformed without error into elements of
    the shape of the pipeline, [get_batch] yields a batch on exactly
    ceiling(num_examples / batch_size) calls and then raises
    [OutOfRangeError]; batch number [k] holds
    min(batch_size, num_examples - k * batch_size) examples, so that a last
    batch can be smaller than batch_size. *)
Theorem batches_without_repeat
    (filenames : list string) (batch_size : nat) (image_size : Z * Z)
    (num_landmarks : nat) (shuffle augmentation : bool) (self : Pipeline) :
  __init__ env filenames batch_size image_size num_landmarks false shuffle
    augmentation = Ok self ->
  (0 < batch_size)%nat ->
  shuffle_permutes env ->
  (forall i example_proto,
      In example_proto (all_records env filenames) ->
      processes env
        (mkAttributes (fst image_size) (snd image_size) augmentation
           batch_size num_landmarks) i example_proto = true) ->
  num_examples self = length (all_records env filenames) /\
  terminates_after (ceil_div (num_examples self) batch_size) self /\
  forall k, (k < ceil_div (num_examples self) batch_size)%nat ->
    batch_length (get_batch_nth k self) =
    Some (Nat.min batch_size (num_examples self - k * batch_size)).
Proof.
  intros Hinit Hb Hperm Hprocess. apply init_ok in Hinit. cbv zeta in Hinit.
  destruct Hinit as (_ & Hn & Hpos & Hattr & Hiter).
  set (attributes := mkAttributes (fst image_size) (snd image_size)
                       augmentation batch_size num_landmarks) in *.
  set (n := num_examples self) in *.
  set (records := record_dataset env filenames batch_size shuffle 0%nat).
  assert (Hlen : length records = n)
    by (unfold records; rewrite Hn; apply record_dataset_length, Hperm).
  assert (Hstream : forall j,
             batched_elements (iterator_source (iterator self)) j =
             option_map (map_fn env attributes j) (nth_error records j)).
  { intros j. rewrite Hiter. cbn [iterator_source batched_elements].
    unfold map_stream. rewrite repeat_once. reflexivity. }
  assert (Hin : forall j, (j < n)%nat ->
             exists e,
               batched_elements (iterator_source (iterator self)) j =
                 Some (Ok e) /\ well_shaped attributes e = true).
  { intros j Hj. rewrite Hstream.
    destruct (nth_error records j) as [example_proto |] eqn:Hnth.
    - assert (Hrec : In example_proto (all_records env filenames)).
      { apply (Permutation_in _
                 (record_dataset_permutation env filenames batch_size shuffle
                    0%nat Hperm)).
        eapply nth_error_In. exact Hnth. }
      specialize (Hprocess j example_proto Hrec).
      unfold processes in Hprocess. cbn [option_map].
      destruct (map_fn env attributes j example_proto) as [e | err];
        [| discriminate].
      exists e. split; [reflexivity | exact Hprocess].
    - apply nth_error_None in Hnth. lia. }
  assert (Hout : forall j, (n <= j)%nat ->
             batched_elements (iterator_source (iterator self)) j = None).
  { intros j Hj. rewrite Hstream.
    replace (nth_error records j) with (@None Example); [reflexivity |].
    symmetry. apply nth_error_None. lia. }
  assert (Hsize : batched_size (iterator_source (iterator self)) = batch_size)
    by (rewrite Hiter; reflexivity).
  assert (Hzero : iterator_position (iterator self) = 0%nat)
    by (rewrite Hiter; reflexivity).
  assert (Hcall : forall k,
             ((k * batch_size < n)%nat ->
              batch_length (get_batch_nth k self) =
              Some (Nat.min batch_size (n - k * batch_size))) /\
             ((n <= k * batch_size)%nat ->
              get_batch_nth k self = Raise OutOfRangeError)).
  { intros k. rewrite get_batch_nth_advance.
    pose proof (advance_position self attributes n) as Hposition.
    cbv zeta in Hposition. rewrite Hsize in Hposition.
    specialize (Hposition Hb Hzero Hin Hout k).
    destruct (advance_keeps k self) as (_ & _ & Hkeep).
    unfold get_batch, get_next. rewrite Hkeep, Hsize, Hposition.
    destruct batch_size as [| b]; [lia |]. rewrite <- Hkeep.
    rewrite Hkeep. split; intros Hk.
    - destruct (pull_clean attributes _ n Hin Hout (S b)
                  (Nat.min (k * S b) n) [])
        as (batch & Hpull & Hfst & _); [constructor | right; lia |].
      rewrite Hpull. cbn [fst]. unfold batch_length.
      destruct batch as [images landmark_sets]. cbn [fst] in Hfst.
      rewrite Hfst. cbn [length]. f_equal. lia.
    - rewrite pull_end by (apply Hout; lia). reflexivity. }
  split; [exact Hn |]. split.
  - split.
    + intros k Hk. apply (ceil_div_lt n batch_size k Hb) in Hk.
      destruct (Hcall k) as [Hyes _]. specialize (Hyes Hk).
      destruct (get_batch_nth k self) as [b | e]; [exists b; reflexivity |].
      discriminate.
    + destruct (Hcall (ceil_div n batch_size)) as [_ Hno]. apply Hno.
      destruct (Nat.lt_ge_cases (ceil_div n batch_size * batch_size) n)
        as [Hlt | Hge]; [| exact Hge].
      apply (ceil_div_lt n batch_size _ Hb) in Hlt. lia.
  - intros k Hk. apply (ceil_div_lt n batch_size k Hb) in Hk.
    destruct (Hcall k) as [Hyes _]. exact (Hyes Hk).
Qed.

Lemma get_batch_pull (self : Pipeline) (b : nat) (r : Result Batch)
    (pos' : nat) :
  let source := iterator_source (iterator self) in
  batched_size source = S b ->
  pull (batched_elements source) (S b) (iterator_position (iterator self)) [] =
    (r, pos') ->
  get_batch self =
  (r, mkPipeline (self_attributes self) (num_examples self)
        (mkIterator source pos')).
Proof.
  cbv zeta. intros Hsize Hpull. unfold get_batch, get_next.
  rewrite Hsize, Hpull. reflexivity.
Qed.

(** C4 (as amended). For every valid construction and every emitted batch,
    the first and the last included: every image of the batch has shape
    [3, H, W] and values in [0, 1], every landmark set has N rows (of two
    coordinates), and the batch stacks as many landmark sets as images;
    it stacks exactly batch_size of them whenever the stream repeats or
    another batch follows. The coordinates of the landmarks are those the
    transform computed, which need not lie in [0, 1]. *)
Theorem batch_shapes
    (filenames : list string) (batch_size : nat) (image_size : Z * Z)
    (num_landmarks : nat) (repeat_ shuffle augmentation : bool)
    (self : Pipeline) (k : nat) (images : list (Tensor3 Q))
    (landmark_sets : list Landmarks) :
  __init__ env filenames batch_size image_size num_landmarks repeat_ shuffle
    augmentation = Ok self ->
  (0 < batch_size)%nat ->
  shuffle_permutes env ->
  (augmentation = true -> augmentations_contract env) ->
  get_batch_nth k self = Ok (images, landmark_sets) ->
  length images = length landmark_sets /\
  (repeat_ = true \/ get_batch_nth (S k) self <> Raise OutOfRangeError ->
   length images = batch_size) /\
  Forall (fun image =>
            shape3 image = (3%Z, snd image_size, fst image_size) /\
            values_in_unit image) images /\
  Forall (fun landmarks => length landmarks = num_landmarks) landmark_sets.
Proof.
  intros Hinit Hb Hperm Hcontract Hget. apply init_ok in Hinit.
  cbv zeta in Hinit. destruct Hinit as (_ & Hn & Hpos & Hattr & Hiter).
  set (attributes := mkAttributes (fst image_size) (snd image_size)
                       augmentation batch_size num_landmarks) in *.
  set (records := record_dataset env filenames batch_size shuffle) in *.
  set (s := map_stream (map_fn env attributes)
              (repeat (if repeat_ then None else Some 1%nat) records)) in *.
  destruct (advance_keeps k self) as (_ & _ & Hkeep).
  rewrite Hiter in Hkeep. cbn [iterator_source] in Hkeep.
  destruct batch_size as [| b] eqn:Hbatch; [lia |].
  rewrite get_batch_nth_advance in Hget.
  destruct (pull s (S b) (iterator_position (iterator (advance k self))) [])
    as [r pos'] eqn:Hpull.
  assert (Hcall : get_batch (advance k self) =
                  (r, mkPipeline (self_attributes (advance k self))
                        (num_examples (advance k self))
                        (mkIterator (mkBatched s (S b)) pos'))).
  { rewrite <- Hkeep. apply (get_batch_pull (advance k self) b).
    - rewrite Hkeep. reflexivity.
    - rewrite Hkeep. exact Hpull. }
  rewrite Hcall in Hget. cbn [fst] in Hget. subst r.
  apply pull_ok in Hpull.
  destruct Hpull as (new & Hstack & Hpos' & Hlen & Hnth & Hend & Hne).
  cbn [rev app] in Hstack, Hne. apply stack_ok in Hstack.
  injection Hstack as -> ->. rewrite !length_map.
  assert (Helement : forall e, In e new ->
             shape3 (fst e) = (3%Z, snd image_size, fst image_size) /\
             values_in_unit (fst e) /\ length (snd e) = num_landmarks).
  { intros e He. apply In_nth_error in He. destruct He as [j Hj].
    apply Hnth in Hj. unfold s, map_stream in Hj.
    destruct (repeat _ records _) as [example_proto |]; [| discriminate].
    cbn [option_map] in Hj. injection Hj as Hj.
    apply (map_fn_shape env attributes _ example_proto e Hcontract) in Hj.
    exact Hj. }
  split; [reflexivity |]. split; [| split].
  - intros Hfollows.
    destruct Hend as [Hfull | Hend]; [exact Hfull | exfalso].
    assert (Hlast : repeat_ = false /\
                    get_batch_nth (S k) self = Raise OutOfRangeError);
      [| destruct Hlast as [Hrepeat Hnext];
         destruct Hfollows as [Hfollows | Hfollows];
         [congruence | exact (Hfollows Hnext)]].
    assert (Hrepeat : repeat_ = false).
    { destruct repeat_; [exfalso | reflexivity].
      unfold s, map_stream in Hend.
      destruct (repeat_forever records pos') as [a Ha].
      - intros pass. unfold records.
        rewrite (record_dataset_length env filenames (S b) shuffle pass Hperm).
        rewrite <- Hn. exact Hpos.
      - rewrite Ha in Hend. discriminate. }
    split; [exact Hrepeat |].
    rewrite get_batch_nth_advance, advance_succ, Hcall. cbn [snd].
    unfold get_batch, get_next. cbn [iterator iterator_source batched_size
      batched_elements iterator_position].
    rewrite (pull_end s b pos' Hend). reflexivity.
  - apply Forall_forall. intros image Himage. apply in_map_iff in Himage.
    destruct Himage as (e & <- & He). destruct (Helement e He) as (? & ? & ?).
    split; assumption.
  - apply Forall_forall. intros landmarks Hl. apply in_map_iff in Hl.
    destruct Hl as (e & <- & He). destruct (Helement e He) as (? & ? & ?).
    assumption.
Qed.

(** C6. With augmentation enabled the transform of one record is: parse and
    decode, then rotation, then the resize of the rotated image to the
    target size, then color manipulation, then pixel value scale, then
    Gaussian blur, then horizontal flip, each applied to the image (and the
    landmarks, and the state of the generator) that the step before it
    returned, and last the transpose. No other order gives this result for
    every choice of the six transforms, and [crop] takes no part in it:
    the result is made of these steps alone and fails only where parsing or
    the resize fails. *)
Theorem augmentation_order_fixed
    (self : Attributes) (example_proto : Example) (st : State env) :
  augmentation self = true ->
  _parse_and_preprocess env self example_proto st =
  match parse_single_example (num_landmarks self) example_proto with
  | Raise e => Raise e
  | Ok parsed =>
      let image := convert_image_dtype (decode_jpeg (feature_image parsed)) in
      let box :=
        clip_box (feature_ymin parsed, feature_xmin parsed,
                  feature_ymax parsed, feature_xmax parsed) in
      let landmarks :=
        clip_landmarks (reshape_rows (feature_landmarks parsed)) in
      let '((rotated, _, landmarks), rng) :=
        random_rotation env image box landmarks 30 (state_rng st) in
      match resize_images rotated (image_height self, image_width self) with
      | Raise e => Raise e
      | Ok resized =>
          let '(colored, rng) :=
            random_color_manipulations env resized 0.15 0.05 rng in
          let '(scaled, rng) :=
            random_pixel_value_scale env colored 0.85 1.15 0.15 rng in
          let '(blurred, rng) := random_gaussian_blur env scaled 0.3 5 rng in
          let '((flipped, landmarks), rng) :=
            random_flip_left_right env blurred landmarks rng in
          Ok ((transpose_201 flipped, landmarks),
              mkState env rng
                (state_stages st ++
                 [StageRotation; StageResize; StageColorManipulations;
                  StagePixelValueScale; StageGaussianBlur;
                  StageFlipLeftRight]))
      end
  end.
Proof.
  intros Haug. unfold _parse_and_preprocess. rewrite Haug.
  unfold bind at 1. unfold lift at 1.
  destruct (parse_single_example (num_landmarks self) example_proto)
    as [parsed | e]; [| reflexivity].
  cbv zeta. unfold bind at 1. rewrite augmentation_fn_unfolded.
  unfold spec_augmented.
  destruct (random_rotation env _ _ _ _ _) as [[[rotated box'] landmarks'] rng1].
  destruct (resize_images rotated _) as [resized | e]; [| reflexivity].
  destruct (random_color_manipulations env _ _ _ _) as [colored rng2].
  destruct (random_pixel_value_scale env _ _ _ _ _) as [scaled rng3].
  destruct (random_gaussian_blur env _ _ _ _) as [blurred rng4].
  destruct (random_flip_left_right env _ _ _) as [[flipped landmarks''] rng5].
  reflexivity.
Qed.

(** C7. The resize statement returns the landmarks it was given, bit for
    bit, whatever the target size; and on the path without augmentation
    the landmarks of the result are those [crop] computed, the same for
    every target size. *)
Theorem resize_keeps_landmarks
    (self self' : Attributes) (image image' : Image)
    (landmarks landmarks' : Landmarks) (example_proto : Example)
    (st st' st1 st2 : State env) (out1 out2 : Element) :
  (resize_step env self (image, landmarks) st = Ok ((image', landmarks'), st') ->
   landmarks' = landmarks) /\
  (augmentation self = false -> augmentation self' = false ->
   num_landmarks self = num_landmarks self' ->
   _parse_and_preprocess env self example_proto st = Ok (out1, st1) ->
   _parse_and_preprocess env self' example_proto st = Ok (out2, st2) ->
   snd out1 = snd out2).
Proof.
  split.
  - intros Hstep. apply resize_step_ok in Hstep. tauto.
  - intros Haug Haug' HN Hrun1 Hrun2.
    apply parse_and_preprocess_plain in Hrun1; [| exact Haug].
    apply parse_and_preprocess_plain in Hrun2; [| exact Haug'].
    cbv zeta in Hrun1, Hrun2.
    destruct Hrun1 as (c1 & r1 & _ & Hcrop1 & _).
    destruct Hrun2 as (c2 & r2 & _ & Hcrop2 & _).
    rewrite Hcrop1 in Hcrop2. injection Hcrop2 as _ Heq. exact Heq.
Qed.

(** C9. If some shard of the list yields no record, the construction fails
    on its assertion, so that no pipeline exists from which a batch could
    be requested; and a construction that succeeds has counted the records
    of every shard, none of them empty. *)
Theorem init_rejects_empty_shard
    (filenames : list string) (batch_size : nat) (image_size : Z * Z)
    (num_landmarks : nat) (repeat_ shuffle augmentation : bool) :
  ((exists filename,
       In filename filenames /\ tf_record_iterator env filename = []) ->
   __init__ env filenames batch_size image_size num_landmarks repeat_ shuffle
     augmentation = Raise AssertionError) /\
  (forall self,
      __init__ env filenames batch_size image_size num_landmarks repeat_
        shuffle augmentation = Ok self ->
      Forall (fun filename => tf_record_iterator env filename <> [])
        filenames /\
      num_examples self = length (all_records env filenames)).
Proof.
  split.
  - intros Hempty. unfold __init__. destruct image_size as [width height].
    rewrite (count_examples_empty env filenames 0 Hempty). reflexivity.
  - intros self Hinit. apply init_ok in Hinit. cbv zeta in Hinit. tauto.
Qed.

End PipelineClaims.

(** * The claims on sample data *)

(** ** The sample pipeline *)

Lemma ten_pipeline_ok (augmentation : bool) :
  ten_pipeline augmentation = Ok (ten_self augmentation).
Proof. destruct augmentation; reflexivity. Qed.

Lemma still_permutes (files : string -> list Example) :
  shuffle_permutes (still_environment files).
Proof. intros A pass buffer_size l. apply Permutation_refl. Qed.

Lemma still_contract (files : string -> list Example) :
  augmentations_contract (still_environment files).
Proof.
  constructor; intros; cbn; unfold keeps_image; tauto.
Qed.

Lemma ten_records_process (augmentation : bool) (i : nat)
    (example_proto : Example) :
  In example_proto
    (all_records ten_environment ["train-0"; "train-1"]%string) ->
  processes ten_environment (mkAttributes 2 2 augmentation 4 1) i
    example_proto = true.
Proof.
  intros Hin. vm_compute in Hin.
  repeat (destruct Hin as [<- | Hin]; [destruct augmentation; vm_compute; reflexivity |]).
  destruct Hin.
Qed.

(** ** The claims as they were stated, at sample inputs *)

(** C1, as stated, fails: on an image of 100 by 100 pixels the box
    (0.4, 0.4, 0.6, 0.6) is grown to 35..65 by the code, to 30..70 by an
    expansion of 50% on each side. *)
Lemma crop_region_half_margin_counterexample :
  ~ box_eq (crop_region 100 100 centre_box)
      (spec_crop_region 100 100 centre_box).
Proof. intros (H & _). vm_compute in H. discriminate. Qed.

(** C3. Against the claim, and against the shape [batch_size, ...] that
    [get_batch] documents: with ten records, batches of four and no repeat
    the stream does not end after floor(10 / 4) = 2 batches; the third call
    returns a batch of the two remaining records and only the fourth call
    signals the end. *)
Lemma ten_records_third_batch :
  ten_pipeline false = Ok (ten_self false) /\
  num_examples (ten_self false) = 10%nat /\
  batch_size (self_attributes (ten_self false)) = 4%nat /\
  ~ terminates_after (floor_div 10 4) (ten_self false) /\
  emitted_lengths 4 (ten_pipeline false) =
    [Some 4%nat; Some 4%nat; Some 2%nat; None] /\
  get_batch_nth 3 (ten_self false) = Raise OutOfRangeError.
Proof.
  split; [apply ten_pipeline_ok |]. split; [reflexivity |].
  split; [reflexivity |]. split; [| split; vm_compute; reflexivity].
  intros [_ Hend].
  assert (Hok : is_ok (get_batch_nth (floor_div 10 4) (ten_self false)) = true)
    by (vm_compute; reflexivity).
  rewrite Hend in Hok. discriminate.
Qed.

(** C4, as stated, fails: in the first batch of the sample pipeline the
    landmark in the corner of the image is rebased to (-3/5, -3/5), outside
    [0, 1]. *)
Lemma batch_shapes_counterexample :
  ten_pipeline false = Ok (ten_self false) /\
  is_ok (get_batch_nth 0 (ten_self false)) = true /\
  ~ Forall landmarks_in_unit
      (batch_landmarks (get_batch_nth 0 (ten_self false))).
Proof.
  split; [apply ten_pipeline_ok |]. split; [vm_compute; reflexivity |].
  remember (batch_landmarks (get_batch_nth 0 (ten_self false))) as l eqn:Hl.
  vm_compute in Hl. subst l. intros Hall.
  inversion Hall as [| first rest Hfirst _]. unfold landmarks_in_unit in Hfirst.
  inversion Hfirst as [| p ps [[Hlow _] _] _].
  vm_compute in Hlow. apply Hlow. reflexivity.
Qed.

(** ** The theorems at sample inputs *)

Ltac q_compare := vm_compute; first [reflexivity | discriminate].

Ltac raised_but_ok H :=
  exfalso;
  match type of H with
  | ?r = Raise _ =>
      let Hok := fresh "Hok" in
      assert (Hok : is_ok r = true) by (vm_compute; reflexivity);
      rewrite H in Hok; discriminate Hok
  end.

Lemma corner_box_precondition : crop_precondition 4 4 corner_box.
Proof.
  unfold crop_precondition, corner_box, box_in_unit. repeat split; q_compare.
Qed.

Lemma crop_rebases_landmarks_witness :
  exists image' landmarks',
    crop gray_image corner_landmarks corner_box = Ok (image', landmarks') /\
    let image_h := inject_Z (dim0 gray_image) in
    let image_w := inject_Z (dim1 gray_image) in
    let '(ymin, xmin, ymax, xmax) := corner_box in
    let h := ymax * image_h - ymin * image_h in
    let w := xmax * image_w - xmin * image_w in
    let crop_ymin := Qmax (ymin * image_h - (1 # 4) * h) 0 in
    let crop_xmin := Qmax (xmin * image_w - (1 # 4) * w) 0 in
    let crop_ymax := Qmin (ymax * image_h + (1 # 4) * h) image_h in
    let crop_xmax := Qmin (xmax * image_w + (1 # 4) * w) image_w in
    Forall2
      (fun old new =>
         fst new == (fst old * image_h - crop_ymin) / (crop_ymax - crop_ymin) /\
         snd new == (snd old * image_w - crop_xmin) / (crop_xmax - crop_xmin))
      corner_landmarks landmarks'.
Proof.
  destruct (crop gray_image corner_landmarks corner_box)
    as [[image' landmarks'] | e] eqn:Hcrop.
  - exists image', landmarks'. split; [reflexivity |].
    exact (crop_rebases_landmarks _ _ _ _ _ Hcrop).
  - raised_but_ok Hcrop.
Defined.

Lemma crop_degenerate_region_witness :
  (region_height (crop_region 4 4 flat_box) == 0 /\
   exists msg,
     crop gray_image corner_landmarks flat_box =
     Raise (InvalidArgumentError msg)) /\
  (crop_precondition 4 4 corner_box /\
   0 < region_height (crop_region 4 4 corner_box) /\
   0 < region_width (crop_region 4 4 corner_box)).
Proof.
  split.
  - assert (Hflat : region_height
                      (crop_region (to_float (dim0 gray_image))
                         (to_float (dim1 gray_image)) flat_box) == 0)
      by q_compare.
    split; [exact Hflat |].
    exact (proj1 (crop_degenerate_region gray_image corner_landmarks flat_box)
             (or_introl Hflat)).
  - split; [exact corner_box_precondition |].
    exact (proj2 (crop_degenerate_region gray_image corner_landmarks corner_box)
             corner_box_precondition).
Defined.

Lemma crop_landmark_round_trip_witness :
  crop_precondition 4 4 corner_box /\
  landmark_eq
    (uncrop_landmark 4 4 (crop_region 4 4 corner_box)
       (rebase_landmark 4 4 (crop_region 4 4 corner_box) (0.25, 0.75)))
    (0.25, 0.75).
Proof.
  split; [exact corner_box_precondition |].
  exact (crop_landmark_round_trip 4 4 corner_box (0.25, 0.75)
           corner_box_precondition).
Defined.

Lemma full_region_whole :
  whole_region
    (quarter_crop_region (inject_Z (dim0 gray_image))
       (inject_Z (dim1 gray_image)) full_box).
Proof.
  repeat split; [exists 0%Z | exists 0%Z | exists 4%Z | exists 4%Z];
    q_compare.
Qed.

Lemma crop_window_and_frame_witness :
  exists image' landmarks',
    crop gray_image corner_landmarks full_box = Ok (image', landmarks') /\
    let r :=
      quarter_crop_region (inject_Z (dim0 gray_image))
        (inject_Z (dim1 gray_image)) full_box in
    whole_region r /\
    inject_Z (dim0 image') == region_height r /\
    inject_Z (dim1 image') == region_width r.
Proof.
  destruct (crop gray_image corner_landmarks full_box)
    as [[image' landmarks'] | e] eqn:Hcrop.
  - exists image', landmarks'. split; [reflexivity |]. cbv zeta.
    split; [exact full_region_whole |].
    pose proof (proj1 crop_window_and_frame gray_image image' corner_landmarks
                  landmarks' full_box Hcrop) as Hframe.
    cbv zeta in Hframe. destruct Hframe as (_ & _ & Hwhole).
    destruct (Hwhole full_region_whole) as (_ & _ & Hrows & Hcolumns).
    split; [exact Hrows | exact Hcolumns].
  - raised_but_ok Hcrop.
Defined.

Lemma batches_without_repeat_witness :
  ten_pipeline false = Ok (ten_self false) /\
  num_examples (ten_self false) =
    length (all_records ten_environment ten_files) /\
  terminates_after (ceil_div (num_examples (ten_self false)) 4)
    (ten_self false) /\
  forall k, (k < ceil_div (num_examples (ten_self false)) 4)%nat ->
    batch_length (get_batch_nth k (ten_self false)) =
    Some (Nat.min 4 (num_examples (ten_self false) - k * 4)).
Proof.
  split; [exact (ten_pipeline_ok false) |].
  exact (batches_without_repeat ten_environment ten_files 4 (2, 2)%Z 1
           false false (ten_self false) (ten_pipeline_ok false)
           (Nat.lt_0_succ 3) (still_permutes ten_records)
           (fun i example_proto Hin =>
              ten_records_process false i example_proto Hin)).
Defined.

Lemma second_batch_follows :
  get_batch_nth 1 (ten_self true) <> Raise OutOfRangeError.
Proof.
  intros Hend.
  assert (Hok : is_ok (get_batch_nth 1 (ten_self true)) = true)
    by (vm_compute; reflexivity).
  rewrite Hend in Hok. discriminate.
Qed.

Lemma batch_shapes_witness :
  exists images landmark_sets,
    ten_pipeline true = Ok (ten_self true) /\
    get_batch_nth 0 (ten_self true) = Ok (images, landmark_sets) /\
    length images = length landmark_sets /\
    length images = 4%nat /\
    Forall (fun image =>
              shape3 image = (3%Z, 2%Z, 2%Z) /\ values_in_unit image) images /\
    Forall (fun landmarks => length landmarks = 1%nat) landmark_sets.
Proof.
  destruct (get_batch_nth 0 (ten_self true))
    as [[images landmark_sets] | e] eqn:Hget.
  - exists images, landmark_sets.
    split; [exact (ten_pipeline_ok true) |]. split; [reflexivity |].
    destruct (batch_shapes ten_environment ten_files 4 (2, 2)%Z 1 false false
                true (ten_self true) 0 images landmark_sets
                (ten_pipeline_ok true) (Nat.lt_0_succ 3)
                (still_permutes ten_records)
                (fun _ => still_contract ten_records) Hget)
      as (Hsame & Hfull & Himages & Hsets).
    split; [exact Hsame |].
    split; [exact (Hfull (or_intror second_batch_follows)) |].
    split; [exact Himages | exact Hsets].
  - raised_but_ok Hget.
Defined.

Lemma augmentation_order_fixed_witness :
  exists out st',
    _parse_and_preprocess tracing_environment (mkAttributes 2 2 true 4 1)
      corner_example tracing_state = Ok (out, st') /\
    state_rng st' =
      [StageRotation; StageColorManipulations; StagePixelValueScale;
       StageGaussianBlur; StageFlipLeftRight] /\
    at3 (fst out) 0 0 0 == (319 # 510) * (319 # 510).
Proof.
  pose proof (augmentation_order_fixed tracing_environment
                (mkAttributes 2 2 true 4 1) corner_example tracing_state
                eq_refl) as Hsteps.
  destruct (_parse_and_preprocess tracing_environment
              (mkAttributes 2 2 true 4 1) corner_example tracing_state)
    as [[out st'] | e] eqn:Hrun.
  - exists out, st'. split; [reflexivity |].
    assert (Hpair :
              (state_rng st', at3 (fst out) 0 0 0) =
              match Ok (out, st') with
              | Ok (element, final) =>
                  (state_rng final, at3 (fst element) 0 0 0)
              | Raise _ => ([], 0)
              end) by reflexivity.
    rewrite Hsteps in Hpair. vm_compute in Hpair.
    injection Hpair as Htrace Hpixel. split; [exact Htrace |].
    match type of Hpixel with
    | _ = ?v =>
        replace (at3 (fst out) 0 0 0) with v by (symmetry; exact Hpixel)
    end.
    q_compare.
  - exfalso. rewrite Hsteps in Hrun. vm_compute in Hrun. discriminate.
Defined.

Lemma resize_keeps_landmarks_witness :
  exists out1 out2 st1 st2,
    _parse_and_preprocess ten_environment (mkAttributes 2 2 false 4 1)
      corner_example still_state = Ok (out1, st1) /\
    _parse_and_preprocess ten_environment (mkAttributes 5 3 false 4 1)
      corner_example still_state = Ok (out2, st2) /\
    snd out1 = snd out2.
Proof.
  destruct (_parse_and_preprocess ten_environment (mkAttributes 2 2 false 4 1)
              corner_example still_state) as [[out1 st1] | e] eqn:Hrun1;
    [| raised_but_ok Hrun1].
  destruct (_parse_and_preprocess ten_environment (mkAttributes 5 3 false 4 1)
              corner_example still_state) as [[out2 st2] | e] eqn:Hrun2;
    [| raised_but_ok Hrun2].
  exists out1, out2, st1, st2. split; [reflexivity |]. split; [reflexivity |].
  exact (proj2 (resize_keeps_landmarks ten_environment
                  (mkAttributes 2 2 false 4 1) (mkAttributes 5 3 false 4 1)
                  gray_image gray_image corner_landmarks corner_landmarks
                  corner_example still_state still_state st1 st2 out1 out2)
           eq_refl eq_refl eq_refl Hrun1 Hrun2).
Defined.

Lemma init_rejects_empty_shard_witness :
  In "train-2"%string ["train-0"; "train-2"]%string /\
  tf_record_iterator ten_environment "train-2" = [] /\
  __init__ ten_environment ["train-0"; "train-2"]%string 4 (2, 2)%Z 1
    false false false = Raise AssertionError.
Proof.
  assert (Hin : In "train-2"%string ["train-0"; "train-2"]%string)
    by (right; left; reflexivity).
  assert (Hempty : tf_record_iterator ten_environment "train-2" = [])
    by reflexivity.
  split; [exact Hin |]. split; [exact Hempty |].
  exact (proj1 (init_rejects_empty_shard ten_environment
                  ["train-0"; "train-2"]%string 4 (2, 2)%Z 1 false false false)
           (ex_intro _ "train-2"%string (conj Hin Hempty))).
Defined.

(** * Further properties of [crop] *)

Lemma crop_region_inside (image_h image_w : Q) (box : Box) :
  let r := crop_region image_h image_w box in
  0 <= region_ymin r /\ 0 <= region_xmin r /\
  region_ymax r <= image_h /\ region_xmax r <= image_w.
Proof.
  destruct box as [[[ymin xmin] ymax] xmax]. cbv zeta.
  unfold crop_region, region_ymin, region_xmin, region_ymax, region_xmax.
  repeat split;
    first [apply Q.le_max_r | apply Q.le_min_r].
Qed.

(** X1. [crop] fails on no other check of the window than the positive
    target size: it returns an image exactly when the truncated height and
    the truncated width of its region are both positive. The offsets are
    never negative and the window never exceeds the image. *)
Theorem crop_succeeds_iff (image : Image) (landmarks : Landmarks) (box : Box) :
  let r :=
    crop_region (to_float (dim0 image)) (to_float (dim1 image)) box in
  is_ok (crop image landmarks box) = true <->
  (0 < to_int32 (region_height r))%Z /\ (0 < to_int32 (region_width r))%Z.
Proof.
  cbv zeta.
  pose proof (crop_region_inside (to_float (dim0 image))
                (to_float (dim1 image)) box) as Hinside.
  cbv zeta in Hinside. unfold crop.
  destruct (crop_region (to_float (dim0 image)) (to_float (dim1 image)) box)
    as [[[ymin xmin] ymax] xmax].
  unfold crop_window, region_height, region_width, region_ymin, region_xmin,
    region_ymax, region_xmax, to_float in *.
  destruct Hinside as (Hy0 & Hx0 & Hy1 & Hx1).
  destruct (to_int32_bounds ymin Hy0) as (Hoy & Hoy1 & _).
  destruct (to_int32_bounds xmin Hx0) as (Hox & Hox1 & _).
  split.
  - destruct (crop_to_bounding_box image (to_int32 ymin) (to_int32 xmin)
                (to_int32 (ymax - ymin)) (to_int32 (xmax - xmin)))
      as [image' |] eqn:Hwindow; [| discriminate].
    intros _. apply crop_to_bounding_box_ok in Hwindow. tauto.
  - intros [Hth Htw].
    pose proof (to_int32_positive _ Hth) as Hh.
    pose proof (to_int32_positive _ Htw) as Hw.
    destruct (to_int32_bounds (ymax - ymin) (Qlt_le_weak _ _ Hh))
      as (_ & Hth1 & _).
    destruct (to_int32_bounds (xmax - xmin) (Qlt_le_weak _ _ Hw))
      as (_ & Htw1 & _).
    assert (Hfit_y : (to_int32 ymin + to_int32 (ymax - ymin) <= dim0 image)%Z).
    { rewrite Zle_Qle, inject_Z_plus. lra. }
    assert (Hfit_x : (to_int32 xmin + to_int32 (xmax - xmin) <= dim1 image)%Z).
    { rewrite Zle_Qle, inject_Z_plus. lra. }
    unfold crop_to_bounding_box.
    destruct (Z.ltb_spec (to_int32 xmin) 0); [lia |].
    destruct (Z.ltb_spec (to_int32 ymin) 0); [lia |].
    destruct (Z.leb_spec (to_int32 (xmax - xmin)) 0); [lia |].
    destruct (Z.leb_spec (to_int32 (ymax - ymin)) 0); [lia |].
    destruct (Z.ltb_spec (dim1 image)
                (to_int32 (xmax - xmin) + to_int32 xmin)); [lia |].
    destruct (Z.ltb_spec (dim0 image)
                (to_int32 (ymax - ymin) + to_int32 ymin)); [lia |].
    reflexivity.
Qed.

(** X2. The window that is cut out starts at most one pixel before the
    exact region and is at most one pixel shorter and narrower than it, and
    it ends inside the region: truncation never cuts beyond the exact
    bounds. *)
Theorem crop_window_within_one_pixel (image_h image_w : Q) (box : Box) :
  let r := crop_region image_h image_w box in
  0 <= region_height r -> 0 <= region_width r ->
  let '(oy, ox, th, tw) := crop_window r in
  (inject_Z oy <= region_ymin r < inject_Z oy + 1) /\
  (inject_Z ox <= region_xmin r < inject_Z ox + 1) /\
  (inject_Z th <= region_height r < inject_Z th + 1) /\
  (inject_Z tw <= region_width r < inject_Z tw + 1) /\
  inject_Z (oy + th) <= region_ymax r /\
  inject_Z (ox + tw) <= region_xmax r.
Proof.
  cbv zeta. pose proof (crop_region_inside image_h image_w box) as Hinside.
  cbv zeta in Hinside.
  destruct (crop_region image_h image_w box) as [[[ymin xmin] ymax] xmax].
  unfold crop_window, region_height, region_width, region_ymin, region_xmin,
    region_ymax, region_xmax in *.
  destruct Hinside as (Hy0 & Hx0 & _ & _). intros Hh Hw.
  destruct (to_int32_bounds ymin Hy0) as (_ & Hoy).
  destruct (to_int32_bounds xmin Hx0) as (_ & Hox).
  destruct (to_int32_bounds (ymax - ymin) Hh) as (_ & Hth).
  destruct (to_int32_bounds (xmax - xmin) Hw) as (_ & Htw).
  rewrite !inject_Z_plus. repeat split; lra.
Qed.

(** X3. For a box with components in [0, 1] and ymin <= ymax,
    xmin <= xmax, the region lies inside the image and contains the box:
    0 <= region_ymin <= box_ymin <= box_ymax <= region_ymax <= image_h in
    pixels, and the same along x. *)
Theorem crop_region_contains_box (image_h image_w : Q) (box : Box) :
  0 <= image_h -> 0 <= image_w -> box_in_unit box -> box_ordered box ->
  let r := crop_region image_h image_w box in
  let b := pixel_box image_h image_w box in
  (0 <= region_ymin r /\ region_ymin r <= region_ymin b /\
   region_ymin b <= region_ymax b /\ region_ymax b <= region_ymax r /\
   region_ymax r <= image_h) /\
  (0 <= region_xmin r /\ region_xmin r <= region_xmin b /\
   region_xmin b <= region_xmax b /\ region_xmax b <= region_xmax r /\
   region_xmax r <= image_w).
Proof.
  destruct box as [[[ymin xmin] ymax] xmax].
  unfold box_in_unit, box_ordered, pixel_box, crop_region, region_ymin,
    region_xmin, region_ymax, region_xmax.
  intros Hih Hiw (Hymin & Hxmin & Hymax & Hxmax) (Hy & Hx). cbv zeta.
  set (y0 := ymin * image_h - 0.5 * ((ymax * image_h - ymin * image_h) / 2.0)).
  set (y1 := ymax * image_h + 0.5 * ((ymax * image_h - ymin * image_h) / 2.0)).
  set (x0 := xmin * image_w - 0.5 * ((xmax * image_w - xmin * image_w) / 2.0)).
  set (x1 := xmax * image_w + 0.5 * ((xmax * image_w - xmin * image_w) / 2.0)).
  assert (Hy0 : y0 == ymin * image_h - (1 # 4) * (ymax * image_h - ymin * image_h))
    by (unfold y0; field).
  assert (Hy1 : y1 == ymax * image_h + (1 # 4) * (ymax * image_h - ymin * image_h))
    by (unfold y1; field).
  assert (Hx0 : x0 == xmin * image_w - (1 # 4) * (xmax * image_w - xmin * image_w))
    by (unfold x0; field).
  assert (Hx1 : x1 == xmax * image_w + (1 # 4) * (xmax * image_w - xmin * image_w))
    by (unfold x1; field).
  assert (Hby : ymin * image_h <= ymax * image_h) by nra.
  assert (Hbx : xmin * image_w <= xmax * image_w) by nra.
  repeat split;
    try apply Q.le_max_r; try apply Q.le_min_r; try assumption;
    first [apply Q.max_lub; nra | apply Q.min_glb; nra].
Qed.

(** X4. When the grown box stays inside the image, nothing is cut: the
    region is one and a half times as high and as wide as the box and has
    the centre of the box. *)
Theorem crop_region_unclamped (image_h image_w : Q) (box : Box) :
  let b := pixel_box image_h image_w box in
  let h := region_height b in
  let w := region_width b in
  0 <= region_ymin b - (1 # 4) * h -> region_ymax b + (1 # 4) * h <= image_h ->
  0 <= region_xmin b - (1 # 4) * w -> region_xmax b + (1 # 4) * w <= image_w ->
  let r := crop_region image_h image_w box in
  region_height r == (3 # 2) * h /\ region_width r == (3 # 2) * w /\
  region_ymin r + region_ymax r == region_ymin b + region_ymax b /\
  region_xmin r + region_xmax r == region_xmin b + region_xmax b.
Proof.
  pose proof (crop_region_quarter image_h image_w box) as Hquarter.
  destruct box as [[[ymin xmin] ymax] xmax]. cbv zeta.
  unfold box_eq in Hquarter.
  destruct Hquarter as (Hy0 & Hx0 & Hy1 & Hx1).
  unfold region_height, region_width. rewrite Hy0, Hx0, Hy1, Hx1.
  unfold pixel_box, quarter_crop_region, region_ymin, region_xmin,
    region_ymax, region_xmax.
  intros Hlow_y Hhigh_y Hlow_x Hhigh_x.
  rewrite (Q.max_l _ 0 Hlow_y), (Q.max_l _ 0 Hlow_x),
    (Q.min_l _ image_h Hhigh_y), (Q.min_l _ image_w Hhigh_x).
  repeat split; ring.
Qed.

(** X5. When the region has positive height and width, a landmark is
    rebased into [0, 1] x [0, 1] exactly when it lies inside the region:
    landmarks outside the crop leave the unit square. *)
Theorem rebased_in_unit_iff_in_region
    (image_h image_w : Q) (r : Box) (p : Landmark) :
  0 < region_height r -> 0 < region_width r ->
  landmark_in_unit (rebase_landmark image_h image_w r p) <->
  landmark_in_region image_h image_w r p.
Proof.
  destruct r as [[[ymin xmin] ymax] xmax]. destruct p as [y x].
  unfold region_height, region_width, landmark_in_unit, landmark_in_region,
    rebase_landmark, region_ymin, region_xmin, region_ymax, region_xmax.
  cbn [fst snd]. intros Hh Hw.
  set (ny := y * (image_h / (ymax - ymin)) - ymin / (ymax - ymin)).
  set (nx := x * (image_w / (xmax - xmin)) - xmin / (xmax - xmin)).
  assert (Hny : ny * (ymax - ymin) == y * image_h - ymin)
    by (unfold ny; field; lra).
  assert (Hnx : nx * (xmax - xmin) == x * image_w - xmin)
    by (unfold nx; field; lra).
  split.
  - intros [[Hy0 Hy1] [Hx0 Hx1]]. repeat split; nra.
  - intros [[Hy0 Hy1] [Hx0 Hx1]]. repeat split; nra.
Qed.

(** * Further properties of the transform and the pipeline *)

(** ** Errors of the image operations *)

Lemma crop_to_bounding_box_raise (image : Image) (oy ox th tw : Z) (e : Error) :
  crop_to_bounding_box image oy ox th tw = Raise e ->
  exists msg, e = InvalidArgumentError msg.
Proof.
  unfold crop_to_bounding_box.
  repeat match goal with
         | |- context [if ?c then _ else _] => destruct c
         end;
    intros Heq; try discriminate; injection Heq as <-; eexists; reflexivity.
Qed.

Lemma crop_raise (image : Image) (landmarks : Landmarks) (box : Box)
    (e : Error) :
  crop image landmarks box = Raise e -> exists msg, e = InvalidArgumentError msg.
Proof.
  unfold crop. destruct (crop_window _) as [[[oy ox] th] tw].
  destruct (crop_to_bounding_box image oy ox th tw) eqn:Hwindow;
    [discriminate |].
  intros Heq. injection Heq as <-.
  exact (crop_to_bounding_box_raise _ _ _ _ _ _ Hwindow).
Qed.

Lemma resize_images_raise (image : Image) (size : Z * Z) (e : Error) :
  resize_images image size = Raise e -> exists msg, e = InvalidArgumentError msg.
Proof.
  unfold resize_images. destruct size as [new_height new_width].
  repeat match goal with
         | |- context [if ?c then _ else _] => destruct c
         end;
    intros Heq; try discriminate; injection Heq as <-; eexists; reflexivity.
Qed.

Lemma stack_raise (elements : list Element) (e : Error) :
  stack elements = Raise e -> exists msg, e = InvalidArgumentError msg.
Proof.
  unfold stack. destruct elements as [| first rest]; [discriminate |].
  destruct (forallb (same_shape first) (first :: rest)); [discriminate |].
  intros Heq. injection Heq as <-. eexists; reflexivity.
Qed.

(** A pull signals the end of the stream only on an empty batch at the
    end, and leaves the position where it was. *)
Lemma pull_out_of_range (s : Stream (Result Element)) (n : nat) :
  (forall i e, s i = Some (Raise e) -> e <> OutOfRangeError) ->
  forall (pos : nat) (acc : list Element) (pos' : nat),
    pull s n pos acc = (Raise OutOfRangeError, pos') ->
    acc = [] /\ s pos = None /\ pos' = pos.
Proof.
  intros Hs. induction n as [| n IH]; intros pos acc pos' Hpull;
    cbn [pull] in Hpull.
  - injection Hpull as Hstack _. apply stack_raise in Hstack.
    destruct Hstack as [msg Hmsg]. discriminate.
  - destruct (s pos) as [[a | e] |] eqn:Hpos.
    + apply IH in Hpull. destruct Hpull as (Hnil & _). discriminate.
    + injection Hpull as -> _. exfalso. exact (Hs pos _ Hpos eq_refl).
    + destruct acc as [| a acc].
      * injection Hpull as <-. repeat split.
      * injection Hpull as Hstack _. apply stack_raise in Hstack.
        destruct Hstack as [msg Hmsg]. discriminate.
Qed.

Lemma get_batch_iterator (self self' : Pipeline) :
  iterator self = iterator self' ->
  fst (get_batch self) = fst (get_batch self') /\
  iterator (snd (get_batch self)) = iterator (snd (get_batch self')).
Proof.
  intros Heq. unfold get_batch. rewrite Heq.
  destruct (get_next (iterator self')). split; reflexivity.
Qed.

Section FurtherProperties.

Variable env : Environment.

(** Every error of the transform of one example is an invalid argument. *)
Lemma parse_and_preprocess_raise (self : Attributes) (example_proto : Example)
    (st : State env) (e : Error) :
  _parse_and_preprocess env self example_proto st = Raise e ->
  exists msg, e = InvalidArgumentError msg.
Proof.
  unfold _parse_and_preprocess. unfold bind at 1. unfold lift at 1.
  unfold parse_single_example.
  destruct (Nat.eqb _ _);
    [| intros Heq; injection Heq as <-; eexists; reflexivity].
  cbv zeta. unfold bind at 1. destruct (augmentation self).
  - rewrite augmentation_fn_unfolded. unfold spec_augmented.
    destruct (random_rotation env _ _ _ _ _) as [[[rotated box'] landmarks'] rng].
    destruct (resize_images rotated _) as [resized | e'] eqn:Hresize.
    + destruct (random_color_manipulations env _ _ _ _).
      destruct (random_pixel_value_scale env _ _ _ _ _).
      destruct (random_gaussian_blur env _ _ _ _).
      destruct (random_flip_left_right env _ _ _) as [[flipped l] rng'].
      discriminate.
    + intros Heq. injection Heq as <-.
      exact (resize_images_raise _ _ _ Hresize).
  - unfold bind at 1. unfold stage at 1. unfold lift at 1.
    destruct (crop _ _ _) as [[cropped landmarks'] | e'] eqn:Hcrop.
    + unfold resize_step, bind, stage, lift, ret.
      destruct (resize_images cropped _) as [resized | e''] eqn:Hresize;
        [discriminate |].
      intros Heq. injection Heq as <-.
      exact (resize_images_raise _ _ _ Hresize).
    + intros Heq. injection Heq as <-. exact (crop_raise _ _ _ _ Hcrop).
Qed.

Lemma map_fn_raise (self : Attributes) (i : nat) (example_proto : Example)
    (e : Error) :
  map_fn env self i example_proto = Raise e ->
  exists msg, e = InvalidArgumentError msg.
Proof.
  unfold map_fn.
  destruct (_parse_and_preprocess env self example_proto _)
    as [[element st'] | e'] eqn:Hrun; [discriminate |].
  intros Heq. injection Heq as <-.
  exact (parse_and_preprocess_raise _ _ _ _ Hrun).
Qed.

Lemma map_stream_no_end_error (self : Attributes) (s : Stream Example)
    (i : nat) (e : Error) :
  map_stream (map_fn env self) s i = Some (Raise e) -> e <> OutOfRangeError.
Proof.
  unfold map_stream. destruct (s i) as [example_proto |]; [| discriminate].
  cbn [option_map]. intros Heq. injection Heq as Heq.
  apply map_fn_raise in Heq. destruct Heq as [msg ->]. discriminate.
Qed.

(** X9. A stream constructed with repeat enabled never signals its end:
    no call of [get_batch] raises [OutOfRangeError]. *)
Theorem repeating_stream_never_ends
    (filenames : list string) (batch_size : nat) (image_size : Z * Z)
    (num_landmarks : nat) (shuffle augmentation : bool) (self : Pipeline)
    (k : nat) :
  __init__ env filenames batch_size image_size num_landmarks true shuffle
    augmentation = Ok self ->
  shuffle_permutes env ->
  get_batch_nth k self <> Raise OutOfRangeError.
Proof.
  intros Hinit Hperm. apply init_ok in Hinit. cbv zeta in Hinit.
  destruct Hinit as (_ & Hn & Hpos & _ & Hiter).
  rewrite get_batch_nth_advance.
  destruct (advance_keeps k self) as (_ & _ & Hkeep).
  rewrite Hiter in Hkeep. cbn [iterator_source] in Hkeep.
  unfold get_batch, get_next. rewrite Hkeep. cbn [batched_size batched_elements].
  destruct batch_size as [| b]; [cbn; discriminate |].
  destruct (pull _ (S b) _ []) as [r pos'] eqn:Hpull. cbn [fst].
  intros ->. apply pull_out_of_range in Hpull.
  - destruct Hpull as (_ & Hend & _). unfold map_stream in Hend.
    destruct (repeat_forever
                (record_dataset env filenames (S b) shuffle)
                (iterator_position (iterator (advance k self)))) as [a Ha].
    + intros pass. rewrite (record_dataset_length env _ _ _ _ Hperm).
      rewrite <- Hn. exact Hpos.
    + rewrite Ha in Hend. discriminate.
  - intros i e. apply map_stream_no_end_error.
Qed.

(** X10. Once [get_batch] has signalled the end of the stream, every
    later call signals it again: the iterator does not move and yields
    nothing more. *)
Theorem exhausted_stays_exhausted
    (filenames : list string) (batch_size : nat) (image_size : Z * Z)
    (num_landmarks : nat) (repeat_ shuffle augmentation : bool)
    (self : Pipeline) (k k' : nat) :
  __init__ env filenames batch_size image_size num_landmarks repeat_ shuffle
    augmentation = Ok self ->
  get_batch_nth k self = Raise OutOfRangeError ->
  (k <= k')%nat ->
  get_batch_nth k' self = Raise OutOfRangeError.
Proof.
  intros Hinit Hend Hle. apply init_ok in Hinit. cbv zeta in Hinit.
  destruct Hinit as (_ & _ & _ & _ & Hiter).
  rewrite get_batch_nth_advance in Hend.
  assert (Hstay : iterator (snd (get_batch (advance k self))) =
                  iterator (advance k self)).
  { destruct (advance_keeps k self) as (_ & _ & Hkeep).
    rewrite Hiter in Hkeep. cbn [iterator_source] in Hkeep.
    revert Hend. unfold get_batch, get_next. rewrite Hkeep.
    cbn [batched_size batched_elements].
    destruct batch_size as [| b]; [cbn; discriminate |].
    destruct (pull _ (S b) _ []) as [r pos'] eqn:Hpull. cbn [fst snd iterator].
    intros ->. apply pull_out_of_range in Hpull.
    - destruct Hpull as (_ & _ & ->).
      destruct (iterator (advance k self)) as [source position] eqn:Hit.
      cbn [iterator_source iterator_position] in *. rewrite Hkeep.
      reflexivity.
    - intros i e. apply map_stream_no_end_error. }
  assert (Hsame : forall d,
             iterator (advance (k + d) self) = iterator (advance k self)).
  { induction d as [| d IH]; [rewrite Nat.add_0_r; reflexivity |].
    rewrite Nat.add_succ_r, advance_succ.
    destruct (get_batch_iterator _ _ IH) as [_ ->]. exact Hstay. }
  replace k' with (k + (k' - k))%nat by lia.
  rewrite get_batch_nth_advance.
  destruct (get_batch_iterator _ _ (Hsame (k' - k)%nat)) as [-> _].
  exact Hend.
Qed.

(** X11. In a stream without repeat whose records are all transformed
    without error, example [j] of batch [k] is the transform of record
    number k * batch_size + j of the pass; without shuffle the records of
    the pass are those of the files, in the order of the files and of the
    records in each file. *)
Theorem batches_follow_the_records
    (filenames : list string) (batch_size : nat) (image_size : Z * Z)
    (num_landmarks : nat) (shuffle augmentation : bool) (self : Pipeline)
    (k j : nat) (images : list (Tensor3 Q)) (landmark_sets : list Landmarks)
    (image : Tensor3 Q) (landmarks : Landmarks) :
  let attributes :=
    mkAttributes (fst image_size) (snd image_size) augmentation batch_size
      num_landmarks in
  __init__ env filenames batch_size image_size num_landmarks false shuffle
    augmentation = Ok self ->
  (0 < batch_size)%nat ->
  shuffle_permutes env ->
  (forall i example_proto,
      In example_proto (all_records env filenames) ->
      processes env attributes i example_proto = true) ->
  get_batch_nth k self = Ok (images, landmark_sets) ->
  nth_error images j = Some image ->
  nth_error landmark_sets j = Some landmarks ->
  (exists example_proto,
      nth_error (record_dataset env filenames batch_size shuffle 0%nat)
        (k * batch_size + j) = Some example_proto /\
      map_fn env attributes (k * batch_size + j)%nat example_proto =
      Ok (image, landmarks)) /\
  record_dataset env filenames batch_size false 0%nat =
  all_records env filenames.
Proof.
  cbv zeta. intros Hinit Hb Hperm Hprocess Hget Himage Hlandmarks.
  split; [| reflexivity].
  apply init_ok in Hinit. cbv zeta in Hinit.
  destruct Hinit as (_ & Hn & Hpos & Hattr & Hiter).
  set (attributes := mkAttributes (fst image_size) (snd image_size)
                       augmentation batch_size num_landmarks) in *.
  set (n := num_examples self) in *.
  set (records := record_dataset env filenames batch_size shuffle 0%nat).
  assert (Hlen : length records = n)
    by (unfold records; rewrite Hn; apply record_dataset_length, Hperm).
  assert (Hstream : forall i,
             batched_elements (iterator_source (iterator self)) i =
             option_map (map_fn env attributes i) (nth_error records i)).
  { intros i. rewrite Hiter. cbn [iterator_source batched_elements].
    unfold map_stream. rewrite repeat_once. reflexivity. }
  assert (Hin : forall i, (i < n)%nat ->
             exists e,
               batched_elements (iterator_source (iterator self)) i =
                 Some (Ok e) /\ well_shaped attributes e = true).
  { intros i Hi. rewrite Hstream.
    destruct (nth_error records i) as [example_proto |] eqn:Hnth.
    - assert (Hrec : In example_proto (all_records env filenames)).
      { apply (Permutation_in _
                 (record_dataset_permutation env filenames batch_size shuffle
                    0%nat Hperm)).
        eapply nth_error_In. exact Hnth. }
      specialize (Hprocess i example_proto Hrec).
      unfold processes in Hprocess. cbn [option_map].
      destruct (map_fn env attributes i example_proto) as [e | err];
        [| discriminate].
      exists e. split; [reflexivity | exact Hprocess].
    - apply nth_error_None in Hnth. lia. }
  assert (Hout : forall i, (n <= i)%nat ->
             batched_elements (iterator_source (iterator self)) i = None).
  { intros i Hi. rewrite Hstream.
    replace (nth_error records i) with (@None Example); [reflexivity |].
    symmetry. apply nth_error_None. lia. }
  assert (Hsize : batched_size (iterator_source (iterator self)) = batch_size)
    by (rewrite Hiter; reflexivity).
  assert (Hzero : iterator_position (iterator self) = 0%nat)
    by (rewrite Hiter; reflexivity).
  pose proof (advance_position self attributes n) as Hposition.
  cbv zeta in Hposition. rewrite Hsize in Hposition.
  specialize (Hposition Hb Hzero Hin Hout k).
  destruct (advance_keeps k self) as (_ & _ & Hkeep).
  rewrite get_batch_nth_advance in Hget.
  unfold get_batch, get_next in Hget. rewrite Hkeep, Hsize, Hposition in Hget.
  destruct batch_size as [| b] eqn:Hbatch; [lia |].
  destruct (pull _ (S b) (Nat.min (k * S b) n) []) as [r pos'] eqn:Hpull.
  cbn [fst] in Hget. subst r. apply pull_ok in Hpull.
  destruct Hpull as (new & Hstack & _ & _ & Hnth & _ & _).
  cbn [rev app] in Hstack. apply stack_ok in Hstack.
  injection Hstack as -> ->.
  rewrite nth_error_map in Himage, Hlandmarks.
  match type of Himage with
  | option_map fst ?element = _ => destruct element as [e |] eqn:Hj
  end; cbn [option_map] in Himage, Hlandmarks; [| discriminate].
  injection Himage as <-. injection Hlandmarks as <-.
  apply Hnth in Hj.
  assert (Hstart : (k * S b < n)%nat).
  { destruct (Nat.lt_ge_cases (k * S b) n) as [Hlt | Hge]; [exact Hlt |].
    rewrite Hout in Hj by lia. discriminate. }
  rewrite Nat.min_l in Hj by lia. rewrite Hstream in Hj.
  destruct (nth_error records (k * S b + j)) as [example_proto |] eqn:Hrecord;
    [| discriminate].
  cbn [option_map] in Hj. injection Hj as Hj.
  exists example_proto. split; [reflexivity |].
  rewrite Hj. destruct e; reflexivity.
Qed.

End FurtherProperties.

(** ** The further properties at sample inputs *)

Lemma corner_region_extents :
  0 <= region_height (crop_region 4 4 corner_box) /\
  0 <= region_width (crop_region 4 4 corner_box) /\
  0 < region_height (crop_region 4 4 corner_box) /\
  0 < region_width (crop_region 4 4 corner_box).
Proof. repeat split; q_compare. Qed.

Lemma crop_window_within_one_pixel_witness :
  (0 <= region_height (crop_region 4 4 corner_box) /\
   0 <= region_width (crop_region 4 4 corner_box)) /\
  let r := crop_region 4 4 corner_box in
  let '(oy, ox, th, tw) := crop_window r in
  (inject_Z oy <= region_ymin r < inject_Z oy + 1) /\
  (inject_Z ox <= region_xmin r < inject_Z ox + 1) /\
  (inject_Z th <= region_height r < inject_Z th + 1) /\
  (inject_Z tw <= region_width r < inject_Z tw + 1) /\
  inject_Z (oy + th) <= region_ymax r /\
  inject_Z (ox + tw) <= region_xmax r.
Proof.
  split.
  - split; apply corner_region_extents.
  - exact (crop_window_within_one_pixel 4 4 corner_box
             (proj1 corner_region_extents)
             (proj1 (proj2 corner_region_extents))).
Defined.

Lemma corner_box_in_unit : box_in_unit corner_box /\ box_ordered corner_box.
Proof.
  unfold box_in_unit, box_ordered, corner_box. repeat split; q_compare.
Qed.

Lemma crop_region_contains_box_witness :
  (0 <= 4 /\ box_in_unit corner_box /\ box_ordered corner_box) /\
  region_ymin (crop_region 4 4 corner_box)
    <= region_ymin (pixel_box 4 4 corner_box) /\
  region_ymax (pixel_box 4 4 corner_box)
    <= region_ymax (crop_region 4 4 corner_box).
Proof.
  assert (Hfour : 0 <= 4) by q_compare.
  split.
  - split; [exact Hfour | exact corner_box_in_unit].
  - pose proof (crop_region_contains_box 4 4 corner_box Hfour Hfour
                  (proj1 corner_box_in_unit) (proj2 corner_box_in_unit))
      as Hinside.
    cbv zeta in Hinside. split; apply Hinside.
Defined.

Lemma centre_box_unclamped :
  let b := pixel_box 100 100 centre_box in
  0 <= region_ymin b - (1 # 4) * region_height b /\
  region_ymax b + (1 # 4) * region_height b <= 100 /\
  0 <= region_xmin b - (1 # 4) * region_width b /\
  region_xmax b + (1 # 4) * region_width b <= 100.
Proof. cbv zeta. repeat split; q_compare. Qed.

Lemma crop_region_unclamped_witness :
  region_height (crop_region 100 100 centre_box) ==
    (3 # 2) * region_height (pixel_box 100 100 centre_box) /\
  region_width (crop_region 100 100 centre_box) ==
    (3 # 2) * region_width (pixel_box 100 100 centre_box).
Proof.
  pose proof (crop_region_unclamped 100 100 centre_box
                (proj1 centre_box_unclamped)
                (proj1 (proj2 centre_box_unclamped))
                (proj1 (proj2 (proj2 centre_box_unclamped)))
                (proj2 (proj2 (proj2 centre_box_unclamped)))) as Hsize.
  cbv zeta in Hsize. split; apply Hsize.
Defined.

Lemma rebased_in_unit_iff_in_region_witness :
  (0 < region_height (crop_region 4 4 corner_box) /\
   0 < region_width (crop_region 4 4 corner_box)) /\
  (landmark_in_unit
     (rebase_landmark 4 4 (crop_region 4 4 corner_box) (0.5, 0.75)) <->
   landmark_in_region 4 4 (crop_region 4 4 corner_box) (0.5, 0.75)).
Proof.
  split.
  - split; apply corner_region_extents.
  - exact (rebased_in_unit_iff_in_region 4 4 (crop_region 4 4 corner_box)
             (0.5, 0.75)
             (proj1 (proj2 (proj2 corner_region_extents)))
             (proj2 (proj2 (proj2 corner_region_extents)))).
Defined.

Lemma repeating_stream_never_ends_witness :
  exists self,
    ten_repeating = Ok self /\
    get_batch_nth 5 self <> Raise OutOfRangeError.
Proof.
  destruct ten_repeating as [self | e] eqn:Hinit.
  - exists self. split; [reflexivity |].
    exact (repeating_stream_never_ends ten_environment ten_files 4 (2, 2)%Z 1
             false false self 5 Hinit (still_permutes ten_records)).
  - raised_but_ok Hinit.
Defined.

Lemma exhausted_stays_exhausted_witness :
  get_batch_nth 3 (ten_self false) = Raise OutOfRangeError /\
  get_batch_nth 7 (ten_self false) = Raise OutOfRangeError.
Proof.
  assert (Hend : get_batch_nth 3 (ten_self false) = Raise OutOfRangeError)
    by (vm_compute; reflexivity).
  split; [exact Hend |].
  exact (exhausted_stays_exhausted ten_environment ten_files 4 (2, 2)%Z 1
           false false false (ten_self false) 3 7 (ten_pipeline_ok false)
           Hend (proj1 (Nat.leb_le 3 7) eq_refl)).
Defined.

Lemma batches_follow_the_records_witness :
  exists images landmark_sets image landmarks example_proto,
    get_batch_nth 2 (ten_self false) = Ok (images, landmark_sets) /\
    nth_error images 1 = Some image /\
    nth_error landmark_sets 1 = Some landmarks /\
    nth_error (all_records ten_environment ten_files) 9 = Some example_proto /\
    map_fn ten_environment (mkAttributes 2 2 false 4 1) 9 example_proto =
    Ok (image, landmarks).
Proof.
  destruct (get_batch_nth 2 (ten_self false))
    as [[images landmark_sets] | e] eqn:Hget; [| raised_but_ok Hget].
  assert (Himages : batch_length (get_batch_nth 2 (ten_self false)) =
                    Some 2%nat) by (vm_compute; reflexivity).
  assert (Hsets : length (batch_landmarks (get_batch_nth 2 (ten_self false))) =
                  2%nat) by (vm_compute; reflexivity).
  rewrite Hget in Himages, Hsets. cbn in Himages, Hsets.
  destruct images as [| image0 [| image rest]]; try discriminate Himages.
  destruct landmark_sets as [| landmarks0 [| landmarks rest']];
    try discriminate Hsets.
  destruct (batches_follow_the_records ten_environment ten_files 4 (2, 2)%Z 1
              false false (ten_self false) 2 1 (image0 :: image :: rest)
              (landmarks0 :: landmarks :: rest') image landmarks
              (ten_pipeline_ok false) (Nat.lt_0_succ 3)
              (still_permutes ten_records)
              (fun i example_proto Hin =>
                 ten_records_process false i example_proto Hin)
              Hget eq_refl eq_refl) as [(example_proto & Hrecord & Hmap) _].
  exists (image0 :: image :: rest), (landmarks0 :: landmarks :: rest'),
    image, landmarks, example_proto.
  split; [reflexivity |]. split; [reflexivity |]. split; [reflexivity |].
  split; [exact Hrecord | exact Hmap].
Defined.

(** * The result of the transform *)

Section ErrorsAndResults.

Variable env : Environment.

(** X13. What the transform returns is what its documentation says: an
    image of shape [3, image_height, image_width] with pixel values in
    [0, 1], together with num_landmarks landmarks; on the path with
    augmentation this rests on the contract of the augmentations. *)
Theorem parse_and_preprocess_result
    (self : Attributes) (example_proto : Example) (st st' : State env)
    (out : Element) :
  (augmentation self = true -> augmentations_contract env) ->
  _parse_and_preprocess env self example_proto st = Ok (out, st') ->
  shape3 (fst out) = (3%Z, image_height self, image_width self) /\
  values_in_unit (fst out) /\
  length (snd out) = num_landmarks self.
Proof.
  intros Hcontract Hrun.
  pose proof (convert_image_dtype_unit
                (decode_jpeg (feature_image example_proto))) as Hunit.
  destruct (augmentation self) eqn:Haug.
  - apply parse_and_preprocess_augmented in Hrun; [| exact Haug].
    cbv zeta in Hrun.
    destruct Hrun as (augmented & rng & Hlen & Hspec & Himage & _).
    apply spec_augmented_shape in Hspec; [| auto | exact Hunit].
    destruct Hspec as (Hshape & Hu & Hl).
    rewrite Himage. split; [| split].
    + unfold shape3 in *. simpl. injection Hshape as -> -> ->. reflexivity.
    + apply transpose_201_unit, Hu.
    + rewrite Hl, length_clip_landmarks. apply length_reshape_rows, Hlen.
  - apply parse_and_preprocess_plain in Hrun; [| exact Haug].
    cbv zeta in Hrun.
    destruct Hrun as (cropped & resized & Hlen & Hcrop & Hresize & Himage & _).
    apply crop_ok in Hcrop. cbv zeta in Hcrop. destruct Hcrop as [Hwindow Hl].
    apply crop_to_bounding_box_unit in Hwindow; [| exact Hunit].
    destruct Hwindow as [Hcu Hcd].
    apply resize_images_unit in Hresize; [| exact Hcu].
    destruct Hresize as [Hzu Hzs].
    rewrite Himage. split; [| split].
    + unfold shape3 in *. simpl. injection Hzs as -> -> ->.
      rewrite Hcd. reflexivity.
    + apply transpose_201_unit, Hzu.
    + rewrite Hl, length_map, length_clip_landmarks.
      apply length_reshape_rows, Hlen.
Qed.

End ErrorsAndResults.

Lemma parse_and_preprocess_result_witness :
  exists out st',
    _parse_and_preprocess ten_environment (mkAttributes 2 2 true 4 1)
      corner_example still_state = Ok (out, st') /\
    shape3 (fst out) = (3%Z, 2%Z, 2%Z) /\
    values_in_unit (fst out) /\
    length (snd out) = 1%nat.
Proof.
  destruct (_parse_and_preprocess ten_environment (mkAttributes 2 2 true 4 1)
              corner_example still_state) as [[out st'] | e] eqn:Hrun;
    [| raised_but_ok Hrun].
  exists out, st'. split; [reflexivity |].
  exact (parse_and_preprocess_result ten_environment
           (mkAttributes 2 2 true 4 1) corner_example still_state st' out
           (fun _ => still_contract ten_records) Hrun).
Defined.
